(** * Digital Collection Uptime Monitor: a shallow embedding of [monitor.py]

    The class [DigitalCollectionMonitor] is modelled method by method.
    - Python strings and SQLite TEXT values are [String.string]; SQLite
      compares TEXT with the BINARY collation (memcmp), which is
      [String.compare] on byte strings.
    - Python floats and SQLite REAL values are IEEE 754 doubles: each
      arithmetic operation, [round(x, 2)] and the [AVG] aggregate round
      their exact result to binary64 ([fl]).
    - The network, the clock and the thread pool are inputs: the outcome of
      [self.session.get], the value of [datetime.now().isoformat()], and the
      order in which [as_completed] yields the futures. *)

From Stdlib Require Import String Ascii List ZArith QArith Qpower Qround Qabs Lia Lqa.
From Stdlib Require Import Permutation Sorting.Sorted DecimalString.
Import ListNotations.

Open Scope string_scope.

(** ** Python exceptions raised by [self.session.get]

    The [requests] hierarchy as far as the handlers of [check_collection]
    see it: [ConnectTimeout] is both a [ConnectionError] and a [Timeout];
    [ReadTimeout] is a [Timeout] only; every [RequestException] is an
    [Exception]; a [BaseException] that is not an [Exception]
    ([KeyboardInterrupt], [SystemExit]) is none of them. *)
Inductive exc_class :=
  | ReadTimeout          (* requests.exceptions.Timeout, not ConnectionError *)
  | ConnectTimeout       (* requests.exceptions.ConnectionError and Timeout *)
  | ConnectionError      (* ConnectionError, SSLError, ProxyError, ... *)
  | OtherRequestException (* any other requests.exceptions.RequestException *)
  | OtherException       (* an Exception outside requests' hierarchy *)
  | BaseOnly.            (* a BaseException that is not an Exception *)

Definition is_Timeout (c : exc_class) : bool :=
  match c with ReadTimeout | ConnectTimeout => true | _ => false end.

Definition is_ConnectionError (c : exc_class) : bool :=
  match c with ConnectTimeout | ConnectionError => true | _ => false end.

Definition is_RequestException (c : exc_class) : bool :=
  match c with
  | ReadTimeout | ConnectTimeout | ConnectionError | OtherRequestException => true
  | _ => false
  end.

Definition is_Exception (c : exc_class) : bool :=
  match c with BaseOnly => false | _ => true end.

Record py_exc := mk_exc { exc_cls : exc_class; exc_str : string (* str(e) *) }.

(** A Python call either returns a value or raises. *)
Inductive py_result (A : Type) :=
  | Ok (a : A)
  | Raise (e : py_exc).
Arguments Ok {A} a.
Arguments Raise {A} e.

(** ** Python floats: IEEE 754 binary64

    A double is a finite value, an infinity or NaN. Zeros are not signed
    here: the program never divides by zero, and [-0.0] is falsy like
    [0.0]. *)
Inductive float :=
  | Fin (q : Q)
  | Inf (neg : bool)
  | NaN.

(** [2 ^ e] for an integer [e]. *)
Definition pow2 (e : Z) : Q := Qpower (inject_Z 2) e.

(** [floor(log2 a)] for [a > 0]. *)
Definition Qlog2_floor (a : Q) : Z :=
  let k := (Z.log2 (Qnum a) - Z.log2 (Zpos (Qden a)))%Z in
  if Qle_bool (pow2 k) a then k else (k - 1)%Z.

(** Round half to even to an integer. *)
Definition round_half_even (q : Q) : Z :=
  let f := Qfloor q in
  match Qcompare (q - inject_Z f) (1 # 2) with
  | Lt => f
  | Gt => f + 1
  | Eq => if Z.even f then f else f + 1
  end.

(** The weight of the last bit of a double of magnitude [a]: 53 bits of
    precision, and no bit below [2^-1074] (subnormal numbers). *)
Definition fexp (a : Q) : Z := Z.max (Qlog2_floor a - 52) (-1074).

(** The double nearest to [x], ties to even; a magnitude that rounds to
    [2^1024] or more overflows to an infinity. A binary64 operation returns
    its exact result rounded by [fl]. *)
Definition fl (x : Q) : float :=
  if Qeq_bool x 0 then Fin 0 else
  let neg := negb (Qle_bool 0 x) in
  let a := Qabs x in
  let e := fexp a in
  let m := round_half_even (a / pow2 e) in
  if Qle_bool (pow2 1024) (inject_Z m * pow2 e) then Inf neg
  else Fin (Qred (inject_Z (if neg then - m else m) * pow2 e)).

(** [x + y] *)
Definition fadd (x y : float) : float :=
  match x, y with
  | Fin a, Fin b => fl (a + b)
  | Inf s, Fin _ | Fin _, Inf s => Inf s
  | Inf s, Inf t => if Bool.eqb s t then Inf s else NaN
  | _, _ => NaN
  end.

(** [x * y] *)
Definition fmul (x y : float) : float :=
  match x, y with
  | Fin a, Fin b => fl (a * b)
  | Inf s, Fin b | Fin b, Inf s =>
      if Qeq_bool b 0 then NaN else Inf (xorb s (negb (Qle_bool 0 b)))
  | Inf s, Inf t => Inf (xorb s t)
  | _, _ => NaN
  end.

(** [x / y] on C doubles, as SQLite divides. *)
Definition fdiv (x y : float) : float :=
  match x, y with
  | Fin a, Fin b =>
      if Qeq_bool b 0 then (if Qeq_bool a 0 then NaN else Inf (negb (Qle_bool 0 a)))
      else fl (a / b)
  | Inf s, Fin b => Inf (xorb s (negb (Qle_bool 0 b)))
  | Fin _, Inf _ => Fin 0
  | _, _ => NaN
  end.

(** Python's [a / b] on ints ([b <> 0]): the exact quotient, rounded once. *)
Definition py_int_div (a b : Z) : float := fl (inject_Z a / inject_Z b).

(** The decimal [q] rounded half to even at two decimals, exactly. *)
Definition round2 (q : Q) : Q := Qmake (round_half_even (q * 100)) 100.

(** Python's [round(x, 2)] on a float: CPython rounds the exact binary value
    of [x] half to even at two decimals and reads that decimal back as the
    nearest double; infinities and NaN come back unchanged. *)
Definition py_round2 (x : float) : float :=
  match x with Fin q => fl (round2 q) | _ => x end.

(** Python truthiness of a float: false only for zero. *)
Definition float_truthy (x : float) : bool :=
  match x with Fin q => negb (Qeq_bool q 0) | _ => true end.

(** What [self.session.get(url, timeout=timeout, allow_redirects=True)]
    does: a completed response (with [stream=False] the body is read inside
    the call), or an exception. [elapsed] is the float
    [end_time - start_time]. *)
Inductive get_outcome :=
  | Response (status_code : Z) (elapsed : float) (content_len : Z)
  | Raised (e : py_exc).

(** ** The result dictionary built by [check_collection] *)

Record ProbeResult := mk_result {
  collection_name : string;
  url : string;
  timestamp : string;
  is_accessible : bool;
  status_code : option Z;
  response_time : option float;
  content_length : option Z;
  error_message : option string
}.

(** [f"HTTP {response.status_code}"] *)
Definition http_message (sc : Z) : string :=
  "HTTP " ++ NilZero.string_of_int (Z.to_int sc).

(** [200 <= response.status_code < 400] *)
Definition accessible_code (sc : Z) : bool := (200 <=? sc)%Z && (sc <? 400)%Z.

(** [result['error_message'] = m] on the initial dictionary. *)
Definition set_error_message (r : ProbeResult) (m : string) : ProbeResult :=
  {| collection_name := collection_name r; url := url r; timestamp := timestamp r;
     is_accessible := is_accessible r; status_code := status_code r;
     response_time := response_time r; content_length := content_length r;
     error_message := Some m |}.

(** [DigitalCollectionMonitor.check_collection(name, url, timeout)].
    [now] is [datetime.now().isoformat()]; [session_get] is the network.
    The [try] block can only raise inside [self.session.get]: the lines
    after it read fields of a completed response. The handlers are tried
    in the order of the source, by [isinstance]. *)
Definition check_collection (session_get : string -> Z -> get_outcome)
    (now : string) (name url0 : string) (timeout : Z) : py_result ProbeResult :=
  let result := mk_result name url0 now false None None None None in
  match session_get url0 timeout with
  | Response sc elapsed len =>
      let acc := accessible_code sc in
      Ok (mk_result name url0 now acc (Some sc) (Some (py_round2 elapsed)) (Some len)
            (if negb acc then Some (http_message sc) else None))
  | Raised e =>
      if is_Timeout (exc_cls e) then Ok (set_error_message result "Request timeout")
      else if is_ConnectionError (exc_cls e) then
        Ok (set_error_message result "Connection error")
      else if is_RequestException (exc_cls e) then
        Ok (set_error_message result (exc_str e))
      else if is_Exception (exc_cls e) then
        Ok (set_error_message result ("Unexpected error: " ++ exc_str e))
      else Raise e
  end.

(** ** [monitor_all_collections]: the thread-pool fan-out *)

(** [ThreadPoolExecutor(max_workers=0)] raises [ValueError]. *)
Definition bad_workers : py_exc :=
  mk_exc OtherException "max_workers must be greater than 0".

(** The [for future in as_completed(...)] loop. [order] is the order in
    which the futures complete, each paired with its [(name, url)] from
    [future_to_collection]; [future.result()] is the value of
    [check_collection(name, url)] (default [timeout=10]) or re-raises its
    exception. [except Exception] drops the result and goes on; anything
    else leaves the loop. Printing is not modelled. *)
Fixpoint collect_results (session_get : string -> Z -> get_outcome)
    (clock : string -> string) (order : list (string * string))
    (results : list ProbeResult) : py_result (list ProbeResult) :=
  match order with
  | [] => Ok results
  | (name, url0) :: rest =>
      match check_collection session_get (clock name) name url0 10 with
      | Ok r => collect_results session_get clock rest (results ++ [r])%list
      | Raise e =>
          if is_Exception (exc_cls e) then collect_results session_get clock rest results
          else Raise e
      end
  end.

(** [DigitalCollectionMonitor.monitor_all_collections(max_workers)] with
    [self.collections] given as [collections]; [clock name] is the
    [datetime.now().isoformat()] read by the probe of [name]. *)
Definition monitor_all_collections (collections : list (string * string))
    (max_workers : Z) (session_get : string -> Z -> get_outcome)
    (clock : string -> string) (order : list (string * string))
    : py_result (list ProbeResult) :=
  if (max_workers <=? 0)%Z then Raise bad_workers
  else collect_results session_get clock order [].

(** ** The [monitoring_results] table *)

(** The table in insertion order ([id] is the position); a row carries the
    columns of a [ProbeResult]. *)
Definition store := list ProbeResult.

(** [save_results]: one [INSERT] per result, in order. *)
Definition save_results (db : store) (results : list ProbeResult) : store :=
  (db ++ results)%list.

(** SQLite's [MAX] on TEXT values. *)
Definition text_max (a b : string) : string := if (a <? b)%string then b else a.

(** [SELECT MAX(timestamp) ... WHERE collection_name = n]. *)
Definition max_timestamp (db : store) (n : string) : option string :=
  fold_left (fun m r =>
      if String.eqb (collection_name r) n then
        match m with
        | None => Some (timestamp r)
        | Some t => Some (text_max t (timestamp r))
        end
      else m) db None.

(** [t IN (SELECT MAX(timestamp) FROM monitoring_results GROUP BY collection_name)]:
    [t] equals the maximum of some group; every group is the group of some row. *)
Definition in_group_maxima (db : store) (t : string) : bool :=
  existsb (fun r =>
      match max_timestamp db (collection_name r) with
      | Some m => String.eqb m t
      | None => false
      end) db.

(** The dictionary built for each row by [get_current_status]. *)
Record StatusRow := mk_status {
  st_collection_name : string;
  st_url : string;
  st_status_code : option Z;
  st_response_time : option float;
  st_timestamp : string;
  st_error_message : option string;
  st_is_accessible : bool
}.

(** A REAL parameter as SQLite stores it: a NaN is bound as NULL. *)
Definition sql_real (v : option float) : option float :=
  match v with Some NaN => None | _ => v end.

Definition to_status (r : ProbeResult) : StatusRow :=
  mk_status (collection_name r) (url r) (status_code r) (sql_real (response_time r))
    (timestamp r) (error_message r) (is_accessible r).

(** [ORDER BY collection_name]: SQL fixes no order among equal names; this
    stable insertion sort is one order the engine may produce. *)
Fixpoint insert_by_name (x : ProbeResult) (l : list ProbeResult) : list ProbeResult :=
  match l with
  | [] => [x]
  | y :: l' =>
      if (collection_name x <=? collection_name y)%string then x :: y :: l'
      else y :: insert_by_name x l'
  end.

Definition order_by_name (l : list ProbeResult) : list ProbeResult :=
  fold_right insert_by_name [] l.

(** [DigitalCollectionMonitor.get_current_status()]. *)
Definition get_current_status (db : store) : list StatusRow :=
  map to_status
    (order_by_name (filter (fun r => in_group_maxima db (timestamp r)) db)).

(** ** [get_uptime_stats] *)

Record Stats := mk_stats {
  uptime_percent : float;
  total_checks : Z;
  successful_checks : Z;
  avg_response_time : option float
}.

(** [WHERE timestamp > ?] with [since_time], a TEXT comparison. *)
Definition window (since_time : string) (db : store) : store :=
  filter (fun r => (since_time <? timestamp r)%string) db.

(** [GROUP BY collection_name ORDER BY collection_name]: the distinct names
    in ascending order, built by insertion without duplicates. *)
Fixpoint insert_name (n : string) (l : list string) : list string :=
  match l with
  | [] => [n]
  | m :: l' =>
      match String.compare n m with
      | Lt => n :: m :: l'
      | Eq => m :: l'
      | Gt => m :: insert_name n l'
      end
  end.

Definition group_names (rows : store) : list string :=
  fold_right insert_name [] (map collection_name rows).

Definition group_rows (rows : store) (n : string) : store :=
  filter (fun r => String.eqb (collection_name r) n) rows.

(** [COUNT] of all rows of the group *)
Definition sql_count (g : store) : Z := Z.of_nat (length g).

(** [SUM(CASE WHEN is_accessible THEN 1 ELSE 0 END)] *)
Definition sql_successful (g : store) : Z :=
  fold_right (fun r acc => ((if is_accessible r then 1 else 0) + acc)%Z) 0%Z g.

(** The non-NULL [response_time] values of the rows, in order. *)
Definition response_times (g : store) : list float :=
  flat_map (fun r => match sql_real (response_time r) with Some t => [t] | None => [] end) g.

(** [AVG(response_time)] as SQLite computes it ([sumStep], [avgFinalize]):
    NULLs are skipped; the other values are added to a double, from [0.0],
    in the order the rows reach the aggregate (the table order, which the
    [GROUP BY] sorter keeps within a group); the sum is divided by the
    count converted to a double. NULL when no value is left. *)
Definition sql_avg (g : store) : option float :=
  match response_times g with
  | [] => None
  | ts => Some (fdiv (fold_left fadd ts (Fin 0)) (fl (inject_Z (Z.of_nat (length ts)))))
  end.

(** Python truthiness of [avg_time]: [None] and [0.0] are false. *)
Definition truthy (v : option float) : bool :=
  match v with Some a => float_truthy a | None => false end.

(** The body of the [for row in cursor.fetchall()] loop: [successful /
    total * 100] divides two ints and multiplies by the int [100]; the
    [else 0] branch gives the int [0], here [0.0]. *)
Definition row_stats (total successful : Z) (avg_time : option float) : Stats :=
  let uptime := if (0 <? total)%Z
                then fmul (py_int_div successful total) (Fin 100) else Fin 0 in
  {| uptime_percent := py_round2 uptime;
     total_checks := total;
     successful_checks := successful;
     avg_response_time :=
       match avg_time with
       | Some a => if truthy avg_time then Some (py_round2 a) else None
       | None => None
       end |}.

(** The rows returned by the aggregate query. *)
Definition stats_query (since_time : string) (db : store) : list (string * Stats) :=
  let w := window since_time db in
  map (fun n => let g := group_rows w n in
                (n, row_stats (sql_count g) (sql_successful g) (sql_avg g)))
      (group_names w).

(** [stats[collection_name] = ...] on a Python dict (insertion ordered). *)
Fixpoint dict_set {V} (d : list (string * V)) (k : string) (v : V) : list (string * V) :=
  match d with
  | [] => [(k, v)]
  | (k', v') :: d' => if String.eqb k' k then (k, v) :: d' else (k', v') :: dict_set d' k v
  end.

Definition dict_get {V} (d : list (string * V)) (k : string) : option V :=
  match find (fun p => String.eqb (fst p) k) d with Some (_, v) => Some v | None => None end.

(** [DigitalCollectionMonitor.get_uptime_stats(hours)]; [since_time] is
    [(datetime.now() - timedelta(hours=hours)).isoformat()]. *)
Definition get_uptime_stats (since_time : string) (db : store) : list (string * Stats) :=
  fold_left (fun d row => dict_set d (fst row) (snd row)) (stats_query since_time db) [].

(** ** [run_monitoring_cycle] and [display_status_report] *)

(** [sum(1 for r in results if r['is_accessible'])]. *)
Definition count_accessible (results : list ProbeResult) : Z :=
  fold_right (fun r acc => if is_accessible r then (acc + 1)%Z else acc) 0%Z results.

(** [DigitalCollectionMonitor.run_monitoring_cycle()]: probe with the
    default [max_workers=5], save, and compute the printed summary
    [accessible_count/total_count]. Returns the new table, the results and
    the summary. *)
Definition run_monitoring_cycle (collections : list (string * string))
    (session_get : string -> Z -> get_outcome) (clock : string -> string)
    (order : list (string * string)) (db : store)
    : py_result (store * list ProbeResult * (Z * Z)) :=
  match monitor_all_collections collections 5 session_get clock order with
  | Ok results =>
      let db' := save_results db results in
      let accessible_count := count_accessible results in
      let total_count := Z.of_nat (length results) in
      Ok (db', results, (accessible_count, total_count))
  | Raise e => Raise e
  end.

(** [up_count] and [down_count] of [display_status_report]. *)
Definition report_counts (current_status : list StatusRow) : Z * Z :=
  let up_count := fold_right (fun s acc => if st_is_accessible s then (acc + 1)%Z else acc)
                    0%Z current_status in
  let down_count := (Z.of_nat (length current_status) - up_count)%Z in
  (up_count, down_count).

(** [(total_checks, successful_checks)] of [n] in a [get_uptime_stats]
    mapping, [(0, 0)] when [n] has no entry. *)
Definition checks_of (stats : list (string * Stats)) (n : string) : Z * Z :=
  match dict_get stats n with
  | Some st => (total_checks st, successful_checks st)
  | None => (0%Z, 0%Z)
  end.

(** The invariant of a [ProbeResult] stated in the data model. *)
Definition valid_result (r : ProbeResult) : Prop :=
  (is_accessible r = true <->
     exists sc, status_code r = Some sc /\ (200 <= sc < 400)%Z) /\
  (is_accessible r = true <-> error_message r = None) /\
  (is_accessible r = false -> exists m, error_message r = Some m).

(** The order of TEXT values. *)
Definition str_lt (a b : string) : Prop := String.compare a b = Lt.

Definition all_timeouts (u : string) (t : Z) : get_outcome :=
  Raised (mk_exc ReadTimeout "timed out").

(** ** Concrete inputs *)

Definition rA1 : ProbeResult :=
  mk_result "A" "https://a.example/" "2024-01-01T00:00:01" true (Some 200%Z)
    (Some (fl (12 # 100))) (Some 512%Z) None.
Definition rA2 : ProbeResult :=
  mk_result "A" "https://a.example/" "2024-01-01T00:00:02" false (Some 503%Z)
    (Some (fl (30 # 100))) (Some 10%Z) (Some "HTTP 503").
Definition rB1 : ProbeResult :=
  mk_result "B" "https://b.example/" "2024-01-01T00:00:01" false None None None
    (Some "Connection error").

(** A store whose only check of ["A"] is older than the window. *)
Definition stale_store : store := [rA1].

(** A probe answered in 3 ms: [round(0.003, 2)] is [0.0]. *)
Definition fast_store : store :=
  match check_collection (fun _ _ => Response 200 (fl (3 # 1000)) 512)
          "2024-01-01T12:00:00.000001" "A" "https://a.example/" 10 with
  | Ok r => [r]
  | Raise _ => []
  end.

(** ["A"] and ["B"] checked at the same instant, then ["A"] alone later. *)
Definition current_status_store : store := [rA1; rB1; rA2].

Definition distinct_store : store :=
  [rA1; rA2; mk_result "B" "https://b.example/" "2024-01-01T00:00:03" true (Some 301%Z)
                 (Some (fl (5 # 100))) (Some 0%Z) None].

Definition interrupted_on_b (u : string) (t : Z) : get_outcome :=
  if String.eqb u "b" then Raised (mk_exc BaseOnly "KeyboardInterrupt")
  else Response 200 (fl (1 # 10)) 100.

(** 23 accessible checks and 137 failed ones of ["A"]. *)
Definition uptime_store : store := (repeat rA1 23 ++ repeat rA2 137)%list.

(** A check of ["A"] at [t] whose response time was rounded to [rt]. *)
Definition timed_check (t : string) (rt : Q) : ProbeResult :=
  mk_result "A" "https://a.example/" t true (Some 200%Z) (Some (fl rt)) (Some 512%Z) None.

(** Four checks of ["A"] answered in 0.78, 0.45, 0.69 and 0.38 s. *)
Definition avg_store : store :=
  [timed_check "2024-01-01T00:00:01" (78 # 100); timed_check "2024-01-01T00:00:02" (45 # 100);
   timed_check "2024-01-01T00:00:03" (69 # 100); timed_check "2024-01-01T00:00:04" (38 # 100)].

(** The same rows, inserted in another order. *)
Definition avg_store_reordered : store :=
  [timed_check "2024-01-01T00:00:01" (78 # 100); timed_check "2024-01-01T00:00:03" (69 # 100);
   timed_check "2024-01-01T00:00:04" (38 # 100); timed_check "2024-01-01T00:00:02" (45 # 100)].

(** ** Probe *)

Example check_collection_500 :
  check_collection (fun _ _ => Response 500 (fl (1 # 10)) 42) "t" "B" "u" 10
  = Ok (mk_result "B" "u" "t" false (Some 500%Z) (Some (fl (10 # 100))) (Some 42%Z)
          (Some "HTTP 500")).
Proof. vm_compute. reflexivity. Qed.

Example check_collection_timeout :
  check_collection (fun _ _ => Raised (mk_exc ConnectTimeout "x")) "t" "C" "u" 10
  = Ok (mk_result "C" "u" "t" false None None None (Some "Request timeout")).
Proof. reflexivity. Qed.

Lemma accessible_code_spec (sc : Z) :
  accessible_code sc = true <-> (200 <= sc < 400)%Z.
Proof. unfold accessible_code. rewrite andb_true_iff, Z.leb_le, Z.ltb_lt. tauto. Qed.

(** Claim C1: every [ProbeResult] returned by [check_collection] has
    [is_accessible] true iff [status_code] is present and in [200, 400),
    iff [error_message] is null; when [is_accessible] is false,
    [error_message] is present. *)
Theorem check_collection_invariant session_get now name u timeout r :
  check_collection session_get now name u timeout = Ok r ->
  (is_accessible r = true <->
     exists sc, status_code r = Some sc /\ (200 <= sc < 400)%Z) /\
  (is_accessible r = true <-> error_message r = None) /\
  (is_accessible r = false -> exists m, error_message r = Some m).
Proof.
  unfold check_collection.
  destruct (session_get u timeout) as [sc el len | e].
  - intros H; injection H as <-; simpl.
    destruct (accessible_code sc) eqn:Hacc; simpl.
    + apply accessible_code_spec in Hacc.
      repeat split; eauto; discriminate.
    + assert (~ (200 <= sc < 400)%Z) by (rewrite <- accessible_code_spec; congruence).
      repeat split; try discriminate; eauto.
      intros [sc' [Hs Hr]]; injection Hs as <-; contradiction.
  - destruct e as [c msg]; destruct c; simpl; intros H; try discriminate.
    all: injection H as <-; simpl.
    all: repeat split; try discriminate; eauto; intros [? [? ?]]; discriminate.
Qed.

Lemma check_collection_invariant_witness :
  check_collection (fun _ _ => Response 500 (fl (1 # 10)) 42) "t" "B" "u" 10
    = Ok (mk_result "B" "u" "t" false (Some 500%Z) (Some (fl (10 # 100))) (Some 42%Z)
            (Some "HTTP 500")) /\
  (false = true <-> exists sc, Some 500%Z = Some sc /\ (200 <= sc < 400)%Z).
Proof.
  split; [vm_compute; reflexivity|].
  exact (proj1 (check_collection_invariant (fun _ _ => Response 500 (fl (1 # 10)) 42)
    "t" "B" "u" 10 _ eq_refl)).
Defined.

(** Claim C4: when [self.session.get] raises instead of completing a
    response, the handlers classify the failure in this priority: a
    [Timeout] gives ["Request timeout"], a [ConnectionError] that is no
    [Timeout] gives ["Connection error"], any other [RequestException] gives
    [str(e)], any other [Exception] gives ["Unexpected error: " + str(e)];
    [status_code], [response_time] and [content_length] stay absent and
    [is_accessible] is false. *)
Theorem check_collection_failure_classification session_get now name u timeout e :
  session_get u timeout = Raised e ->
  is_Exception (exc_cls e) = true ->
  exists r, check_collection session_get now name u timeout = Ok r /\
    status_code r = None /\ response_time r = None /\ content_length r = None /\
    is_accessible r = false /\
    (is_Timeout (exc_cls e) = true -> error_message r = Some "Request timeout") /\
    (is_Timeout (exc_cls e) = false -> is_ConnectionError (exc_cls e) = true ->
       error_message r = Some "Connection error") /\
    (is_Timeout (exc_cls e) = false -> is_ConnectionError (exc_cls e) = false ->
       is_RequestException (exc_cls e) = true -> error_message r = Some (exc_str e)) /\
    (is_RequestException (exc_cls e) = false ->
       error_message r = Some ("Unexpected error: " ++ exc_str e)).
Proof.
  intros Hget Hexc; unfold check_collection; rewrite Hget.
  destruct e as [c msg]; simpl in *.
  destruct c; simpl in *; try discriminate.
  all: eexists; split; [reflexivity|]; simpl.
  all: repeat split; intros; try discriminate; reflexivity.
Qed.

Lemma check_collection_failure_classification_witness :
  exists r, check_collection (fun _ _ => Raised (mk_exc ConnectTimeout "x")) "t" "C" "u" 10
            = Ok r /\ status_code r = None /\ error_message r = Some "Request timeout".
Proof.
  destruct (check_collection_failure_classification
              (fun _ _ => Raised (mk_exc ConnectTimeout "x")) "t" "C" "u" 10
              (mk_exc ConnectTimeout "x") eq_refl eq_refl)
    as [r [Hr [Hs [_ [_ [_ [Ht _]]]]]]].
  exists r. split; [exact Hr|]. split; [exact Hs|]. exact (Ht eq_refl).
Defined.

(** Claim C8: for every input and every outcome of the request, a response
    or a raised [Exception], [check_collection] returns normally a
    [ProbeResult] for [name] and [url] that satisfies the invariant of the
    data model. (A [BaseException] that is not an [Exception], such as
    [KeyboardInterrupt], is not a probe outcome; [except Exception] lets it
    through: see [check_collection_base_exception].) *)
Theorem check_collection_total session_get now name u timeout :
  (forall e, session_get u timeout = Raised e -> is_Exception (exc_cls e) = true) ->
  exists r, check_collection session_get now name u timeout = Ok r /\
    collection_name r = name /\ url r = u /\ timestamp r = now /\ valid_result r.
Proof.
  intros Hexc.
  destruct (check_collection session_get now name u timeout) as [r|e'] eqn:Hc.
  - exists r. split; [reflexivity|].
    pose proof (check_collection_invariant _ _ _ _ _ _ Hc) as Hinv.
    unfold check_collection in Hc.
    destruct (session_get u timeout) as [sc el len | e].
    + injection Hc as <-; exact (conj eq_refl (conj eq_refl (conj eq_refl Hinv))).
    + destruct e as [c msg]; destruct c; simpl in Hc; try discriminate.
      all: injection Hc as <-; exact (conj eq_refl (conj eq_refl (conj eq_refl Hinv))).
  - exfalso. unfold check_collection in Hc.
    destruct (session_get u timeout) as [sc el len | e]; [discriminate|].
    specialize (Hexc e eq_refl).
    destruct e as [c msg]; destruct c; simpl in *; discriminate.
Qed.

Lemma check_collection_total_witness :
  exists r, check_collection (fun _ _ => Raised (mk_exc OtherException "boom")) "t" "D" "u" 10
            = Ok r /\ valid_result r.
Proof.
  destruct (check_collection_total (fun _ _ => Raised (mk_exc OtherException "boom"))
              "t" "D" "u" 10) as [r [Hr [_ [_ [_ Hv]]]]].
  - intros e He. injection He as <-. reflexivity.
  - exists r. split; assumption.
Defined.

(** A [BaseException] that is not an [Exception] escapes [check_collection]. *)
Lemma check_collection_base_exception session_get now name u timeout e :
  session_get u timeout = Raised e -> exc_cls e = BaseOnly ->
  check_collection session_get now name u timeout = Raise e.
Proof. intros Hget Hc. unfold check_collection. rewrite Hget, Hc. reflexivity. Qed.

(** ** Scheduler *)

Lemma collect_results_all session_get clock order acc :
  (forall u t e, session_get u t = Raised e -> is_Exception (exc_cls e) = true) ->
  exists rs, collect_results session_get clock order acc = Ok (acc ++ rs)%list /\
    map (fun r => (collection_name r, url r)) rs = order.
Proof.
  intros Hexc. revert acc.
  induction order as [|[name u] order IH]; intros acc; simpl.
  - exists []. rewrite app_nil_r. split; reflexivity.
  - destruct (check_collection_total session_get (clock name) name u 10%Z (Hexc u 10%Z))
      as [r [Hr [Hn [Hu _]]]].
    rewrite Hr.
    destruct (IH (acc ++ [r])%list) as [rs [Hrs Hmap]].
    exists (r :: rs). rewrite Hrs, <- app_assoc. split; [reflexivity|].
    simpl. rewrite Hn, Hu, Hmap. reflexivity.
Qed.

(** Claim C3: for every mapping of targets and every [max_workers >= 1],
    whatever the outcomes of the probes (all failing included) and in
    whatever order the futures complete, [monitor_all_collections] returns
    exactly one result per target: as many results as targets, and the
    pairs [(collection_name, url)] of the results are the targets. *)
Theorem monitor_all_collections_one_per_target collections max_workers
    session_get clock order :
  (1 <= max_workers)%Z ->
  Permutation order collections ->
  (forall u t e, session_get u t = Raised e -> is_Exception (exc_cls e) = true) ->
  exists results,
    monitor_all_collections collections max_workers session_get clock order = Ok results /\
    length results = length collections /\
    Permutation (map (fun r => (collection_name r, url r)) results) collections.
Proof.
  intros Hk Hperm Hexc. unfold monitor_all_collections.
  replace (max_workers <=? 0)%Z with false by (symmetry; apply Z.leb_gt; lia).
  destruct (collect_results_all session_get clock order [] Hexc) as [rs [Hrs Hmap]].
  exists rs. rewrite Hrs. split; [reflexivity|].
  split.
  - rewrite <- (Permutation_length Hperm), <- Hmap, length_map. reflexivity.
  - rewrite Hmap. exact Hperm.
Qed.

Lemma monitor_all_collections_one_per_target_witness :
  exists results,
    monitor_all_collections [("A", "a"); ("B", "b"); ("C", "c")] 1%Z all_timeouts
      (fun _ => "t") [("C", "c"); ("A", "a"); ("B", "b")] = Ok results /\
    length results = 3%nat.
Proof.
  destruct (monitor_all_collections_one_per_target [("A", "a"); ("B", "b"); ("C", "c")] 1%Z
              all_timeouts (fun _ => "t") [("C", "c"); ("A", "a"); ("B", "b")])
    as [rs [Hrs [Hlen _]]].
  - lia.
  - apply (Permutation_cons_append [("A", "a"); ("B", "b")] ("C", "c")).
  - intros u t e He. injection He as <-. reflexivity.
  - exists rs. split; [exact Hrs | exact Hlen].
Defined.

(** ** The order of TEXT values *)

Lemma str_compare_refl (s : string) : String.compare s s = Eq.
Proof.
  induction s as [|c s IH]; simpl; [reflexivity|].
  unfold Ascii.compare. rewrite N.compare_refl. exact IH.
Qed.

Lemma str_compare_Eq (a b : string) : String.compare a b = Eq <-> a = b.
Proof.
  split; [apply String.compare_eq_iff | intros <-; apply str_compare_refl].
Qed.

Lemma str_compare_Gt (a b : string) : String.compare a b = Gt -> String.compare b a = Lt.
Proof. rewrite String.compare_antisym. destruct (String.compare b a); easy. Qed.

Lemma str_lt_trans (a b c : string) : str_lt a b -> str_lt b c -> str_lt a c.
Proof.
  unfold str_lt. revert b c.
  induction a as [|x a IH]; intros [|y b] [|z c]; simpl; try easy.
  unfold Ascii.compare.
  destruct (N.compare (N_of_ascii x) (N_of_ascii y)) eqn:Hxy;
  destruct (N.compare (N_of_ascii y) (N_of_ascii z)) eqn:Hyz; try easy;
  intros H1 H2.
  - apply N.compare_eq_iff in Hxy, Hyz. rewrite Hxy, Hyz, N.compare_refl. eauto.
  - apply N.compare_eq_iff in Hxy. rewrite Hxy, Hyz. reflexivity.
  - apply N.compare_eq_iff in Hyz. rewrite <- Hyz, Hxy. reflexivity.
  - apply N.compare_lt_iff in Hxy, Hyz.
    replace (N.compare (N_of_ascii x) (N_of_ascii z)) with Lt; [reflexivity|].
    symmetry. apply N.compare_lt_iff. eapply N.lt_trans; eassumption.
Qed.

Lemma str_lt_irrefl (a : string) : ~ str_lt a a.
Proof. unfold str_lt. rewrite str_compare_refl. discriminate. Qed.

Lemma str_ltb_spec (a b : string) : (a <? b)%string = true <-> str_lt a b.
Proof. unfold String.ltb, str_lt. destruct (String.compare a b); easy. Qed.

(** Two strictly ascending lists with the same elements are equal. *)
Lemma strictly_sorted_unique (l1 l2 : list string) :
  StronglySorted str_lt l1 -> StronglySorted str_lt l2 ->
  (forall x, In x l1 <-> In x l2) -> l1 = l2.
Proof.
  revert l2. induction l1 as [|a l1 IH]; intros [|b l2] S1 S2 Hin.
  - reflexivity.
  - exfalso. apply (proj2 (Hin b)). left; reflexivity.
  - exfalso. apply (proj1 (Hin a)). left; reflexivity.
  - apply StronglySorted_inv in S1 as [S1 F1].
    apply StronglySorted_inv in S2 as [S2 F2].
    rewrite Forall_forall in F1, F2.
    assert (a = b) as <-.
    { destruct (String.compare a b) eqn:Hab.
      - apply str_compare_Eq. exact Hab.
      - exfalso. destruct (proj1 (Hin a) (or_introl eq_refl)) as [->|Ha].
        + apply (str_lt_irrefl a). exact Hab.
        + apply (str_lt_irrefl a). apply (str_lt_trans a b a); [exact Hab | apply F2, Ha].
      - exfalso. apply str_compare_Gt in Hab.
        destruct (proj2 (Hin b) (or_introl eq_refl)) as [->|Hb].
        + apply (str_lt_irrefl b). exact Hab.
        + apply (str_lt_irrefl b). apply (str_lt_trans b a b); [exact Hab | apply F1, Hb]. }
    f_equal. apply IH; [exact S1 | exact S2|].
    intros x. split; intros Hx.
    + destruct (proj1 (Hin x) (or_intror Hx)) as [<-|H]; [|exact H].
      exfalso. apply (str_lt_irrefl a), F1, Hx.
    + destruct (proj2 (Hin x) (or_intror Hx)) as [<-|H]; [|exact H].
      exfalso. apply (str_lt_irrefl a), F2, Hx.
Qed.

(** ** [GROUP BY collection_name ORDER BY collection_name] *)

Lemma insert_name_In n l x : In x (insert_name n l) <-> x = n \/ In x l.
Proof.
  induction l as [|m l IH]; simpl; [intuition congruence|].
  destruct (String.compare n m) eqn:Hnm; simpl.
  - apply str_compare_Eq in Hnm. subst. intuition congruence.
  - intuition congruence.
  - rewrite IH. intuition congruence.
Qed.

Lemma insert_name_sorted n l :
  StronglySorted str_lt l -> StronglySorted str_lt (insert_name n l).
Proof.
  induction l as [|m l IH]; simpl; intros S.
  - repeat constructor.
  - apply StronglySorted_inv in S as [S F].
    destruct (String.compare n m) eqn:Hnm.
    + constructor; assumption.
    + constructor; [constructor; assumption|].
      constructor; [exact Hnm|].
      rewrite Forall_forall in F |- *. intros x Hx. apply (str_lt_trans n m x Hnm), F, Hx.
    + constructor; [apply IH, S|].
      rewrite Forall_forall in F |- *. intros x Hx.
      apply insert_name_In in Hx as [->|Hx]; [apply str_compare_Gt, Hnm | apply F, Hx].
Qed.

Lemma group_names_sorted rows : StronglySorted str_lt (group_names rows).
Proof.
  unfold group_names. induction (map collection_name rows) as [|n l IH]; simpl.
  - constructor.
  - apply insert_name_sorted, IH.
Qed.

Lemma group_names_In rows n :
  In n (group_names rows) <-> exists r, In r rows /\ collection_name r = n.
Proof.
  unfold group_names.
  induction rows as [|r rows IH]; simpl; [firstorder|].
  rewrite insert_name_In, IH. split.
  - intros [->|[r' [Hr' <-]]]; eauto.
  - intros [r' [[<-|Hr'] <-]]; eauto.
Qed.

Lemma StronglySorted_NoDup (l : list string) : StronglySorted str_lt l -> NoDup l.
Proof.
  induction l as [|a l IH]; intros S; constructor.
  - apply StronglySorted_inv in S as [_ F]. rewrite Forall_forall in F.
    intros Ha. apply (str_lt_irrefl a), F, Ha.
  - apply IH. apply StronglySorted_inv in S as [S _]. exact S.
Qed.

(** ** The Python dict built by [get_uptime_stats] *)

Lemma dict_set_fresh {V} (d : list (string * V)) k v :
  ~ In k (map fst d) -> dict_set d k v = (d ++ [(k, v)])%list.
Proof.
  induction d as [|[k' v'] d IH]; simpl; intros Hk; [reflexivity|].
  destruct (String.eqb k' k) eqn:E.
  - apply String.eqb_eq in E. subst. exfalso. apply Hk. left; reflexivity.
  - rewrite IH; [reflexivity|]. intros H. apply Hk. right; exact H.
Qed.

Lemma fold_dict_set_fresh {V} (l d : list (string * V)) :
  NoDup (map fst (d ++ l)) ->
  fold_left (fun d row => dict_set d (fst row) (snd row)) l d = (d ++ l)%list.
Proof.
  revert d. induction l as [|[k v] l IH]; intros d Hnd; simpl.
  - rewrite app_nil_r. reflexivity.
  - rewrite map_app in Hnd. simpl in Hnd.
    pose proof Hnd as Hnd0.
    apply NoDup_remove in Hnd as [_ Hk].
    rewrite dict_set_fresh by (intros H; apply Hk, in_or_app; left; exact H).
    rewrite IH, <- app_assoc; [reflexivity|].
    rewrite <- app_assoc. simpl. rewrite map_app. exact Hnd0.
Qed.

Lemma stats_query_keys since_time db :
  map fst (stats_query since_time db) = group_names (window since_time db).
Proof. unfold stats_query. rewrite map_map. simpl. apply map_id. Qed.

Lemma get_uptime_stats_query since_time db :
  get_uptime_stats since_time db = stats_query since_time db.
Proof.
  unfold get_uptime_stats. rewrite fold_dict_set_fresh; [reflexivity|].
  simpl. rewrite stats_query_keys. apply StronglySorted_NoDup, group_names_sorted.
Qed.

Lemma dict_get_some {V} (l : list (string * V)) k v :
  dict_get l k = Some v -> In (k, v) l.
Proof.
  unfold dict_get. destruct (find (fun p => String.eqb (fst p) k) l) as [[k' v']|] eqn:F;
    intros H; [|discriminate].
  injection H as <-. pose proof (find_some _ _ F) as [Hin Hk].
  apply String.eqb_eq in Hk. simpl in Hk. subst. exact Hin.
Qed.

Lemma dict_get_none {V} (l : list (string * V)) k :
  dict_get l k = None <-> ~ In k (map fst l).
Proof.
  unfold dict_get. split.
  - destruct (find (fun p => String.eqb (fst p) k) l) as [[k' v']|] eqn:F; [discriminate|].
    intros _ Hk. apply in_map_iff in Hk as [[k'' v''] [Hk Hin]]. simpl in Hk. subst.
    pose proof (find_none _ _ F _ Hin) as E. simpl in E.
    rewrite String.eqb_refl in E. discriminate.
  - intros Hk. destruct (find (fun p => String.eqb (fst p) k) l) as [[k' v']|] eqn:F;
      [|reflexivity].
    exfalso. pose proof (find_some _ _ F) as [Hin E]. simpl in E.
    apply String.eqb_eq in E. subst. apply Hk. apply in_map_iff. exists (k, v'). auto.
Qed.

(** ** Aggregates do not depend on the order of the rows *)

Lemma Permutation_filter_bool {A} (f : A -> bool) l l' :
  Permutation l l' -> Permutation (filter f l) (filter f l').
Proof.
  induction 1 as [|x l l' _ IH|x y l|l l' l'' _ IH1 _ IH2]; simpl.
  - constructor.
  - destruct (f x); [constructor|]; exact IH.
  - destruct (f x), (f y); try constructor; reflexivity.
  - etransitivity; eassumption.
Qed.

Lemma sql_successful_perm g g' : Permutation g g' -> sql_successful g = sql_successful g'.
Proof.
  unfold sql_successful.
  induction 1 as [|x l l' _ IH|x y l|l l' l'' _ IH1 _ IH2]; simpl; try lia.
Qed.

Lemma round_half_even_comp q q' : q == q' -> round_half_even q = round_half_even q'.
Proof.
  intros E. unfold round_half_even.
  rewrite (Qfloor_comp q q' E).
  rewrite (Qcompare_comp (q - inject_Z (Qfloor q')) (q' - inject_Z (Qfloor q'))
             ltac:(rewrite E; reflexivity) (1 # 2) (1 # 2) (Qeq_refl _)).
  reflexivity.
Qed.

Lemma sql_successful_count g :
  sql_successful g = Z.of_nat (length (filter is_accessible g)).
Proof.
  unfold sql_successful. induction g as [|r g IH]; simpl; [reflexivity|].
  rewrite IH. destruct (is_accessible r); cbn [filter length]; lia.
Qed.

Lemma filter_length_le {A} (f : A -> bool) l : (length (filter f l) <= length l)%nat.
Proof. induction l as [|x l IH]; simpl; [lia|]. destruct (f x); simpl; lia. Qed.

Lemma filter_nil_all {A} (f : A -> bool) l :
  (forall x, In x l -> f x = false) -> filter f l = [].
Proof.
  induction l as [|x l IH]; simpl; intros H; [reflexivity|].
  rewrite (H x (or_introl eq_refl)). apply IH. intros y Hy. apply H. right; exact Hy.
Qed.

Lemma group_rows_nonempty w n :
  In n (group_names w) -> group_rows w n <> [].
Proof.
  intros Hn. apply group_names_In in Hn as [r [Hr Hrn]].
  assert (In r (group_rows w n)) as Hg.
  { unfold group_rows. apply filter_In. split; [exact Hr|]. apply String.eqb_eq, Hrn. }
  intros E. rewrite E in Hg. exact Hg.
Qed.

(** ** Rounding keeps a value in an interval with integer bounds *)

Lemma round_half_even_bounds (a b : Z) (x : Q) :
  inject_Z a <= x <= inject_Z b -> (a <= round_half_even x <= b)%Z.
Proof.
  intros [Ha Hb]. unfold round_half_even.
  pose proof (Qfloor_resp_le _ _ Ha) as Fa. rewrite Qfloor_Z in Fa.
  pose proof (Qfloor_resp_le _ _ Hb) as Fb. rewrite Qfloor_Z in Fb.
  pose proof (Qfloor_le x) as Fl.
  set (f := Qfloor x) in *. clearbody f.
  assert (Hnext : 1 # 2 <= x - inject_Z f -> (f < b)%Z).
  { intros H. rewrite Zlt_Qlt. apply Qlt_le_trans with x; [lra | exact Hb]. }
  destruct (Qcompare (x - inject_Z f) (1 # 2)) eqn:C.
  - apply Qeq_alt in C. assert (f < b)%Z by (apply Hnext; rewrite C; apply Qle_refl).
    destruct (Z.even f); lia.
  - lia.
  - apply Qgt_alt in C. assert (f < b)%Z by (apply Hnext; apply Qlt_le_weak, C). lia.
Qed.

Lemma round2_bounds (x : Q) : 0 <= x <= 100 -> 0 <= round2 x /\ round2 x <= 100.
Proof.
  intros [H0 H1].
  destruct (round_half_even_bounds 0 10000 (x * 100)) as [L U].
  - split; unfold inject_Z; lra.
  - unfold round2, Qle; simpl. lia.
Qed.

Lemma ratio_bounds (s t : Z) :
  (1 <= t)%Z -> (0 <= s <= t)%Z -> 0 <= inject_Z s / inject_Z t <= 1.
Proof.
  intros Ht Hs.
  assert (Tpos : 0 < inject_Z t) by (change 0 with (inject_Z 0); rewrite <- Zlt_Qlt; lia).
  split.
  - apply Qle_shift_div_l; [exact Tpos|]. rewrite Qmult_0_l. change 0 with (inject_Z 0).
    rewrite <- Zle_Qle. lia.
  - apply Qle_shift_div_r; [exact Tpos|]. rewrite Qmult_1_l. rewrite <- Zle_Qle. lia.
Qed.

(** ** Binary64 rounding *)

Lemma pow2_pos e : 0 < pow2 e.
Proof. apply Qpower_0_lt. reflexivity. Qed.

Lemma pow2_plus a b : pow2 (a + b) == pow2 a * pow2 b.
Proof. unfold pow2. apply Qpower_plus. discriminate. Qed.

Lemma pow2_Z n : (0 <= n)%Z -> pow2 n == inject_Z (2 ^ n).
Proof. intros H. unfold pow2. rewrite Zpower_Qpower by exact H. reflexivity. Qed.

Lemma pow2_lt a b : (a < b)%Z -> pow2 a < pow2 b.
Proof. intros H. apply Qpower_lt_compat_l; [exact H | reflexivity]. Qed.

Lemma pow2_le a b : (a <= b)%Z -> pow2 a <= pow2 b.
Proof. intros H. apply Qpower_le_compat_l; [exact H | discriminate]. Qed.

Lemma pow2_lt_inv a b : pow2 a < pow2 b -> (a < b)%Z.
Proof. intros H. apply (Qpower_lt_compat_l_inv (inject_Z 2)); [exact H | reflexivity]. Qed.

Lemma pow2_diff a b : (0 <= a)%Z -> (0 <= b)%Z ->
  pow2 (a - b) == inject_Z (2 ^ a) / inject_Z (2 ^ b).
Proof.
  intros Ha Hb. unfold Z.sub. rewrite pow2_plus. unfold pow2 at 2.
  rewrite Qpower_opp. fold (pow2 b). rewrite !pow2_Z by assumption. reflexivity.
Qed.

Lemma Qdiv_lt_iff (a b c d : Z) : (0 < b)%Z -> (0 < d)%Z ->
  inject_Z a / inject_Z b < inject_Z c / inject_Z d <-> (a * d < c * b)%Z.
Proof.
  intros Hb Hd. destruct b as [|b|b]; try lia. destruct d as [|d|d]; try lia.
  rewrite <- !Qmake_Qdiv. unfold Qlt. simpl. reflexivity.
Qed.

Lemma Qlog2_floor_spec (a : Q) : 0 < a ->
  pow2 (Qlog2_floor a) <= a /\ a < pow2 (Qlog2_floor a + 1).
Proof.
  intros Ha. destruct a as [n d].
  assert (Hn : (0 < n)%Z) by (unfold Qlt in Ha; simpl in Ha; lia).
  unfold Qlog2_floor; cbn [Qnum Qden].
  pose proof (Z.log2_spec n Hn) as [N1 N2].
  pose proof (Z.log2_spec (Zpos d) eq_refl) as [D1 D2].
  pose proof (Z.log2_nonneg n) as Ln. pose proof (Z.log2_nonneg (Zpos d)) as Ld.
  set (ln := Z.log2 n) in *. set (ld := Z.log2 (Zpos d)) in *.
  rewrite Z.pow_succ_r in N2, D2 by assumption.
  assert (Up : n # d < pow2 (ln - ld + 1)).
  { rewrite Qmake_Qdiv. replace (ln - ld + 1)%Z with (Z.succ ln - ld)%Z by lia.
    rewrite pow2_diff by lia. apply Qdiv_lt_iff; try lia.
    rewrite Z.pow_succ_r by lia. nia. }
  assert (Lo : pow2 (ln - ld - 1) < n # d).
  { rewrite Qmake_Qdiv. replace (ln - ld - 1)%Z with (ln - Z.succ ld)%Z by lia.
    rewrite pow2_diff by lia. apply Qdiv_lt_iff; try lia.
    rewrite Z.pow_succ_r by lia. nia. }
  destruct (Qle_bool (pow2 (ln - ld)) (n # d)) eqn:C.
  - apply Qle_bool_iff in C. split; assumption.
  - assert (C' : ~ pow2 (ln - ld) <= n # d) by (rewrite <- Qle_bool_iff; congruence).
    apply Qnot_le_lt in C'. split; [apply Qlt_le_weak, Lo|].
    replace (ln - ld - 1 + 1)%Z with (ln - ld)%Z by lia. exact C'.
Qed.

Lemma Qlog2_floor_unique (a : Q) (k : Z) :
  pow2 k <= a -> a < pow2 (k + 1) -> Qlog2_floor a = k.
Proof.
  intros H1 H2. assert (Ha : 0 < a) by (apply Qlt_le_trans with (pow2 k); [apply pow2_pos | exact H1]).
  destruct (Qlog2_floor_spec a Ha) as [L1 L2].
  assert (Qlog2_floor a < k + 1)%Z by (apply pow2_lt_inv; apply Qle_lt_trans with a; assumption).
  assert (k < Qlog2_floor a + 1)%Z by (apply pow2_lt_inv; apply Qle_lt_trans with a; assumption).
  lia.
Qed.

Lemma round_half_even_error (x : Q) :
  Qabs (inject_Z (round_half_even x) - x) <= 1 # 2.
Proof.
  unfold round_half_even.
  pose proof (Qfloor_le x) as F1. pose proof (Qlt_floor x) as F2.
  set (f := Qfloor x) in *. clearbody f.
  rewrite inject_Z_plus in F2. change (inject_Z 1) with 1 in F2.
  apply Qabs_Qle_condition.
  destruct (Qcompare (x - inject_Z f) (1 # 2)) eqn:C.
  - apply Qeq_alt in C. destruct (Z.even f); [|rewrite inject_Z_plus; change (inject_Z 1) with 1];
      split; lra.
  - apply Qlt_alt in C. split; lra.
  - apply Qgt_alt in C. rewrite inject_Z_plus. change (inject_Z 1) with 1. split; lra.
Qed.

Lemma Fin_inj a b : Fin a = Fin b -> a = b.
Proof. congruence. Qed.

Lemma fl_pos x : 0 < x ->
  fl x = let e := fexp x in let m := round_half_even (x / pow2 e) in
         if Qle_bool (pow2 1024) (inject_Z m * pow2 e) then Inf false
         else Fin (Qred (inject_Z m * pow2 e)).
Proof.
  intros H. unfold fl.
  destruct (Qeq_bool x 0) eqn:E; [apply Qeq_bool_iff in E; lra|].
  replace (Qle_bool 0 x) with true by (symmetry; apply Qle_bool_iff; lra).
  destruct x as [n d]. assert (0 < n)%Z by (unfold Qlt in H; simpl in H; lia).
  unfold Qabs. rewrite Z.abs_eq by lia. reflexivity.
Qed.

Lemma fl_zero x : x == 0 -> fl x = Fin 0.
Proof. intros H. unfold fl. rewrite (proj2 (Qeq_bool_iff x 0) H). reflexivity. Qed.

Lemma fexp_le x j : 0 < x -> x < pow2 (j + 53) -> (-1074 <= j)%Z -> (fexp x <= j)%Z.
Proof.
  intros Hx Hj Hm. destruct (Qlog2_floor_spec x Hx) as [L1 _].
  assert (Qlog2_floor x < j + 53)%Z by (apply pow2_lt_inv; apply Qle_lt_trans with x; assumption).
  unfold fexp. lia.
Qed.

Lemma fl_le (x : Q) (n j : Z) :
  0 <= x -> x <= inject_Z n * pow2 j -> x < pow2 (j + 53) -> (-1074 <= j)%Z ->
  inject_Z n * pow2 j < pow2 1024 ->
  exists y, fl x = Fin y /\ 0 <= y <= inject_Z n * pow2 j.
Proof.
  intros H0 Hn Hj Hmin Hmax. destruct (Qeq_dec x 0) as [Z0|NZ].
  - exists 0. rewrite fl_zero by exact Z0. split; [reflexivity|]. split; lra.
  - assert (Hx : 0 < x) by (apply Qle_lteq in H0 as [H0|H0]; [exact H0|]; symmetry in H0; contradiction).
    rewrite fl_pos by exact Hx. cbv zeta.
    pose proof (fexp_le x j Hx Hj Hmin) as He.
    set (e := fexp x) in *.
    pose proof (pow2_pos e) as Pe.
    set (m := round_half_even (x / pow2 e)).
    assert (Hm : (0 <= m <= n * 2 ^ (j - e))%Z).
    { apply round_half_even_bounds. split.
      - change (inject_Z 0) with 0. apply Qle_shift_div_l; [exact Pe|]. lra.
      - rewrite inject_Z_mult, <- pow2_Z by lia. apply Qle_shift_div_r; [exact Pe|].
        rewrite <- Qmult_assoc, <- pow2_plus. replace (j - e + e)%Z with j by lia. exact Hn. }
    assert (Hy : 0 <= inject_Z m * pow2 e <= inject_Z n * pow2 j).
    { split.
      - apply Qmult_le_0_compat; [|apply Qlt_le_weak, Pe].
        change 0 with (inject_Z 0). rewrite <- Zle_Qle. lia.
      - apply Qle_trans with (inject_Z (n * 2 ^ (j - e)) * pow2 e).
        + apply Qmult_le_compat_r; [rewrite <- Zle_Qle; lia | apply Qlt_le_weak, Pe].
        + rewrite inject_Z_mult, <- pow2_Z by lia. rewrite <- Qmult_assoc, <- pow2_plus.
          replace (j - e + e)%Z with j by lia. apply Qle_refl. }
    replace (Qle_bool (pow2 1024) (inject_Z m * pow2 e)) with false.
    + exists (Qred (inject_Z m * pow2 e)). split; [reflexivity|]. rewrite Qred_correct. exact Hy.
    + symmetry. apply Bool.not_true_iff_false. rewrite Qle_bool_iff.
      set (y := inject_Z m * pow2 e) in *. lra.
Qed.

Lemma fl_error x y : 0 < x -> fl x = Fin y -> Qabs (y - x) <= x * pow2 (-53) + pow2 (-1075).
Proof.
  intros Hx. rewrite fl_pos by exact Hx. cbv zeta.
  set (e := fexp x). set (m := round_half_even (x / pow2 e)).
  destruct (Qle_bool (pow2 1024) (inject_Z m * pow2 e)); [discriminate|].
  intros E. apply Fin_inj in E. subst y. rewrite Qred_correct.
  pose proof (pow2_pos e) as Pe.
  pose proof (round_half_even_error (x / pow2 e)) as Err. fold m in Err.
  assert (D : inject_Z m * pow2 e - x == (inject_Z m - x / pow2 e) * pow2 e).
  { field. apply Qnot_eq_sym, Qlt_not_eq, Pe. }
  rewrite D, Qabs_Qmult, (Qabs_pos (pow2 e)) by (apply Qlt_le_weak, Pe).
  apply Qle_trans with ((1 # 2) * pow2 e).
  { apply Qmult_le_compat_r; [exact Err | apply Qlt_le_weak, Pe]. }
  assert (H2 : (1 # 2) * pow2 e == pow2 (e - 1)).
  { unfold Z.sub. rewrite pow2_plus. rewrite Qmult_comm. reflexivity. }
  rewrite H2.
  pose proof (pow2_pos (-53)) as P53. pose proof (pow2_pos (-1075)) as P1075.
  destruct (Qlog2_floor_spec x Hx) as [L1 _].
  unfold e, fexp. destruct (Z.max_spec (Qlog2_floor x - 52) (-1074)) as [[_ M]|[_ M]]; rewrite M.
  - replace (-1074 - 1)%Z with (-1075)%Z by reflexivity.
    assert (0 <= x * pow2 (-53)) by (apply Qmult_le_0_compat; lra). lra.
  - replace (Qlog2_floor x - 52 - 1)%Z with (Qlog2_floor x + -53)%Z by lia.
    rewrite pow2_plus.
    assert (pow2 (Qlog2_floor x) * pow2 (-53) <= x * pow2 (-53))
      by (apply Qmult_le_compat_r; lra).
    lra.
Qed.

Lemma Qlog2_floor_comp a b : 0 < a -> a == b -> Qlog2_floor a = Qlog2_floor b.
Proof.
  intros Ha E. destruct (Qlog2_floor_spec a Ha) as [L1 L2].
  symmetry. apply Qlog2_floor_unique; rewrite <- E; assumption.
Qed.

Lemma fl_comp x x' : x == x' -> fl x = fl x'.
Proof.
  intros E. destruct (Qeq_dec x 0) as [Z0|NZ].
  - rewrite !fl_zero; [reflexivity | rewrite <- E |]; exact Z0.
  - unfold fl.
    replace (Qeq_bool x' 0) with (Qeq_bool x 0) by (apply Qeqb_comp; [exact E | reflexivity]).
    replace (Qeq_bool x 0) with false
      by (symmetry; apply Bool.not_true_iff_false; rewrite Qeq_bool_iff; exact NZ).
    replace (Qle_bool 0 x') with (Qle_bool 0 x) by (apply Qleb_comp; [reflexivity | exact E]).
    assert (EA : Qabs x == Qabs x') by (rewrite E; reflexivity).
    assert (PA : 0 < Qabs x).
    { destruct (proj1 (Qle_lteq _ _) (Qabs_nonneg x)) as [H|H]; [exact H|].
      exfalso. apply NZ. destruct (proj1 (Qabs_Qle_condition x 0) ltac:(rewrite <- H; apply Qle_refl)). lra. }
    unfold fexp. rewrite (Qlog2_floor_comp _ _ PA EA).
    set (e := Z.max (Qlog2_floor (Qabs x') - 52) (-1074)).
    rewrite (round_half_even_comp (Qabs x / pow2 e) (Qabs x' / pow2 e)) by (rewrite EA; reflexivity).
    reflexivity.
Qed.

Lemma fl_nonneg_bound (x : Q) (n : Z) :
  0 <= x <= inject_Z n -> (n < 2 ^ 53)%Z -> exists y, fl x = Fin y /\ 0 <= y <= inject_Z n.
Proof.
  intros [H0 H1] Hn.
  assert (P0 : inject_Z n * pow2 0 == inject_Z n) by (unfold pow2; simpl; ring).
  destruct (fl_le x n 0) as [y [Hy By]].
  - exact H0.
  - rewrite P0. exact H1.
  - apply Qle_lt_trans with (inject_Z n); [exact H1|].
    rewrite pow2_Z by lia. rewrite <- Zlt_Qlt. exact Hn.
  - lia.
  - rewrite P0. apply Qlt_trans with (inject_Z (2 ^ 53)).
    + rewrite <- Zlt_Qlt. exact Hn.
    + vm_compute. reflexivity.
  - exists y. split; [exact Hy|]. rewrite <- P0. exact By.
Qed.

(** [round(successful / total * 100, 2)] lies in [0, 100]. *)
Lemma uptime_bounds (s t : Z) :
  (1 <= t)%Z -> (0 <= s <= t)%Z ->
  exists u, py_round2 (fmul (py_int_div s t) (Fin 100)) = Fin u /\ 0 <= u <= 100.
Proof.
  intros Ht Hs.
  destruct (fl_nonneg_bound (inject_Z s / inject_Z t) 1) as [a [Ha [A0 A1]]];
    [apply ratio_bounds; assumption | reflexivity |].
  unfold py_int_div. rewrite Ha. unfold fmul.
  destruct (fl_nonneg_bound (a * 100) 100) as [b [Hb [B0 B1]]].
  { change (inject_Z 1) with 1 in A1. change (inject_Z 100) with 100. split; lra. }
  { reflexivity. }
  rewrite Hb. unfold py_round2.
  destruct (fl_nonneg_bound (round2 b) 100) as [u [Hu Bu]].
  { change (inject_Z 100) with 100 in *. apply round2_bounds. split; assumption. }
  { reflexivity. }
  exists u. rewrite Hu. split; [reflexivity|]. exact Bu.
Qed.

Lemma StronglySorted_map_keys {V} (h : string -> V) (l : list string) :
  StronglySorted str_lt l ->
  StronglySorted (fun a b => str_lt (fst a) (fst b)) (map (fun n => (n, h n)) l).
Proof.
  induction l as [|n l IH]; simpl; intros S; constructor.
  - apply IH. apply StronglySorted_inv in S as [S _]. exact S.
  - apply StronglySorted_inv in S as [_ F]. rewrite Forall_forall in F.
    apply Forall_forall. intros [k v] Hk. apply in_map_iff in Hk as [m [E Hm]].
    injection E as <- _. simpl. apply F, Hm.
Qed.

(** Claim C9 (amended): [get_uptime_stats] depends only on the rows of its
    window (the clock enters through [since_time]). Two stores whose
    windows hold the same rows in any order give the same collections, in
    strictly ascending [collection_name] order, with the same
    [total_checks], [successful_checks] and [uptime_percent]; when, besides,
    every collection's rows come in the same order in both windows, the
    two outputs are identical. *)
Theorem get_uptime_stats_row_order since_time db db' :
  Permutation (window since_time db) (window since_time db') ->
  map (fun p => (fst p, total_checks (snd p), successful_checks (snd p), uptime_percent (snd p)))
      (get_uptime_stats since_time db) =
  map (fun p => (fst p, total_checks (snd p), successful_checks (snd p), uptime_percent (snd p)))
      (get_uptime_stats since_time db') /\
  StronglySorted (fun a b => str_lt (fst a) (fst b)) (get_uptime_stats since_time db) /\
  ((forall n, group_rows (window since_time db) n = group_rows (window since_time db') n) ->
   get_uptime_stats since_time db = get_uptime_stats since_time db').
Proof.
  intros P. rewrite !get_uptime_stats_query. unfold stats_query.
  set (w := window since_time db) in *. set (w' := window since_time db') in *.
  assert (Hn : group_names w = group_names w').
  { apply strictly_sorted_unique; try apply group_names_sorted.
    intros x. rewrite !group_names_In. split; intros [r [Hr Hx]]; exists r; split; auto.
    - apply (Permutation_in r P Hr).
    - apply (Permutation_in r (Permutation_sym P) Hr). }
  split; [|split].
  - rewrite Hn, !map_map. apply map_ext. intros n.
    pose proof (Permutation_filter_bool (fun r => String.eqb (collection_name r) n) _ _ P)
      as Pg.
    fold (group_rows w n) (group_rows w' n) in Pg.
    cbn [fst snd]. unfold row_stats. cbn [uptime_percent total_checks successful_checks].
    unfold sql_count. rewrite (Permutation_length Pg), (sql_successful_perm _ _ Pg).
    reflexivity.
  - apply (StronglySorted_map_keys (fun n => let g := group_rows w n in
                row_stats (sql_count g) (sql_successful g) (sql_avg g))).
    apply group_names_sorted.
  - intros Hg. rewrite Hn. apply map_ext. intros n. rewrite Hg. reflexivity.
Qed.

Lemma get_uptime_stats_row_order_witness :
  get_uptime_stats "2024-01-01T00:00:00" [rA1; rB1; rA2]
  = get_uptime_stats "2024-01-01T00:00:00" [rB1; rA1; rA2].
Proof.
  apply (proj2 (proj2 (get_uptime_stats_row_order "2024-01-01T00:00:00"
                  [rA1; rB1; rA2] [rB1; rA1; rA2]
                  ltac:(vm_compute; apply perm_swap)))).
  intros n.
  replace (window "2024-01-01T00:00:00" [rA1; rB1; rA2]) with [rA1; rB1; rA2]
    by (vm_compute; reflexivity).
  replace (window "2024-01-01T00:00:00" [rB1; rA1; rA2]) with [rB1; rA1; rA2]
    by (vm_compute; reflexivity).
  unfold group_rows, filter. cbn [collection_name rA1 rB1 rA2].
  destruct (String.eqb_spec "A" n), (String.eqb_spec "B" n); try reflexivity.
  subst n. discriminate.
Defined.

(** Claim C9, counterexample: [avg_store] and [avg_store_reordered] hold
    the same four checks of ["A"], inserted in two orders. [AVG] adds
    0.78 + 0.45 + 0.69 + 0.38 in binary64 to 2.3 in the first order and to
    2.3000000000000003 in the second, so [avg_response_time] is 0.57 for
    one and 0.58 for the other. *)
Lemma get_uptime_stats_avg_depends_on_order :
  Permutation avg_store avg_store_reordered /\
  option_map avg_response_time (dict_get (get_uptime_stats "2024-01-01T00:00:00" avg_store) "A")
    = Some (Some (fl (57 # 100))) /\
  option_map avg_response_time
      (dict_get (get_uptime_stats "2024-01-01T00:00:00" avg_store_reordered) "A")
    = Some (Some (fl (58 # 100))) /\
  fl (57 # 100) <> fl (58 # 100).
Proof.
  split.
  { unfold avg_store, avg_store_reordered. apply perm_skip.
    apply (Permutation_cons_append [_; _] (timed_check "2024-01-01T00:00:02" (45 # 100))). }
  split; [vm_compute; reflexivity|]. split; [vm_compute; reflexivity|].
  vm_compute. discriminate.
Qed.

(** Claim C10: every entry of [get_uptime_stats] has [total_checks >= 1],
    [0 <= successful_checks <= total_checks] and [uptime_percent] in
    [0, 100]; the [total > 0] test never takes its [else] branch. *)
Theorem get_uptime_stats_entry_bounds since_time db n st :
  In (n, st) (get_uptime_stats since_time db) ->
  (1 <= total_checks st)%Z /\
  (0 <= successful_checks st <= total_checks st)%Z /\
  exists u, uptime_percent st = Fin u /\ 0 <= u <= 100.
Proof.
  rewrite get_uptime_stats_query. unfold stats_query. intros H.
  apply in_map_iff in H as [m [E Hm]]. injection E as -> <-.
  set (g := group_rows (window since_time db) n).
  assert (Hg : g <> []) by apply (group_rows_nonempty _ _ Hm).
  assert (Ht : (1 <= sql_count g)%Z).
  { unfold sql_count. destruct g; [contradiction|]. simpl. lia. }
  assert (Hs : (0 <= sql_successful g <= sql_count g)%Z).
  { rewrite sql_successful_count. unfold sql_count.
    pose proof (filter_length_le is_accessible g). lia. }
  unfold row_stats. cbn [uptime_percent total_checks successful_checks].
  replace (0 <? sql_count g)%Z with true by (symmetry; apply Z.ltb_lt; lia).
  split; [exact Ht|]. split; [exact Hs|].
  apply uptime_bounds; lia.
Qed.

Lemma get_uptime_stats_entry_bounds_witness :
  (1 <= total_checks (snd (hd ("", mk_stats (Fin 0) 0 0 None)
     (get_uptime_stats "2024-01-01T00:00:00" [rA1; rB1; rA2]))))%Z.
Proof.
  apply (get_uptime_stats_entry_bounds "2024-01-01T00:00:00" [rA1; rB1; rA2] "A"
           (snd (hd ("", mk_stats (Fin 0) 0 0 None)
              (get_uptime_stats "2024-01-01T00:00:00" [rA1; rB1; rA2])))).
  vm_compute. left. reflexivity.
Defined.

(** Claim C5 (amended): for every collection [n], let [g] be its rows in
    the window, [N = |g|] and [S] the number of accessible ones. If
    [N >= 1], [get_uptime_stats] has an entry for [n] with
    [total_checks = N], [successful_checks = S] and [uptime_percent =
    round(S / N * 100, 2)] evaluated in binary64: [S / N] is rounded to a
    double, the product by 100 is rounded to a double, and Python's
    [round] gives the double nearest to the result rounded at two
    decimals. If [N = 0], [n] has no entry at all. *)
Theorem get_uptime_stats_uptime_percent since_time db n :
  let g := group_rows (window since_time db) n in
  let N := Z.of_nat (length g) in
  let S := Z.of_nat (length (filter is_accessible g)) in
  match dict_get (get_uptime_stats since_time db) n with
  | Some st => g <> [] /\ total_checks st = N /\ successful_checks st = S /\
               uptime_percent st = py_round2 (fmul (py_int_div S N) (Fin 100))
  | None => g = []
  end.
Proof.
  intros g N S.
  destruct (dict_get (get_uptime_stats since_time db) n) as [st|] eqn:D.
  - apply dict_get_some in D. rewrite get_uptime_stats_query in D.
    unfold stats_query in D. apply in_map_iff in D as [m [E Hm]].
    injection E as -> <-.
    fold g. pose proof (group_rows_nonempty _ _ Hm) as Hg. fold g in Hg.
    unfold row_stats. cbn [uptime_percent total_checks successful_checks].
    assert (HN : (0 < sql_count g)%Z).
    { unfold sql_count. destruct g; [contradiction|]. simpl. lia. }
    rewrite (proj2 (Z.ltb_lt _ _) HN), sql_successful_count.
    repeat split; assumption.
  - apply dict_get_none in D. rewrite get_uptime_stats_query, stats_query_keys in D.
    apply filter_nil_all. intros r Hr. apply Bool.not_true_iff_false.
    intros Hn. apply String.eqb_eq in Hn. apply D, group_names_In.
    exists r. split; [exact Hr | exact Hn].
Qed.

(** Claim C5, counterexample. First, ["A"] has [N = 0] checks in the
    window and [get_uptime_stats] reports no entry for it, not an uptime
    of 0. Second, with [S = 23] of [N = 160] checks, [S / N * 100 = 14.375]
    rounded to two decimals is [14.38], but [get_uptime_stats] reports
    [14.37]: [23 / 160] is rounded to the double just below [0.14375], the
    product by 100 to [14.374999999999998], and [round] gives [14.37]. *)
Lemma get_uptime_stats_uptime_percent_refuted :
  (In "A" (map collection_name stale_store) /\
   group_rows (window "2024-01-01T06:00:00" stale_store) "A" = [] /\
   dict_get (get_uptime_stats "2024-01-01T06:00:00" stale_store) "A" = None) /\
  (round2 (inject_Z 23 / inject_Z 160 * 100) == 1438 # 100 /\
   exists st, dict_get (get_uptime_stats "2024-01-01T00:00:00" uptime_store) "A" = Some st /\
     total_checks st = 160%Z /\ successful_checks st = 23%Z /\
     uptime_percent st = fl (1437 # 100) /\ fl (1437 # 100) <> fl (1438 # 100)).
Proof.
  split; [vm_compute; split; [left; reflexivity | split; reflexivity]|].
  split; [reflexivity|].
  eexists. split; [vm_compute; reflexivity|].
  split; [reflexivity|]. split; [reflexivity|]. split; [vm_compute; reflexivity|].
  vm_compute. discriminate.
Qed.

(** Claim C6, failing input: the window holds one check of ["A"] whose
    [response_time] is present and equal to 0; the mean of the present
    response times is 0, yet [avg_response_time] is reported absent,
    because [if avg_time] treats [0.0] like [None]. *)
Lemma get_uptime_stats_zero_average_dropped :
  map response_time (window "2024-01-01T00:00:00" fast_store) = [Some (Fin 0)] /\
  sql_avg (group_rows (window "2024-01-01T00:00:00" fast_store) "A") = Some (Fin 0) /\
  exists st, dict_get (get_uptime_stats "2024-01-01T00:00:00" fast_store) "A" = Some st /\
             avg_response_time st = None.
Proof.
  split; [vm_compute; reflexivity|]. split; [vm_compute; reflexivity|].
  eexists. split; [vm_compute; reflexivity | reflexivity].
Qed.

(** ** [get_current_status] *)

(** Claim C2, failing input: the older row of ["A"] has the timestamp of
    the latest row of ["B"], so the uncorrelated [IN] subquery keeps it:
    ["A"] is returned twice. *)
Lemma get_current_status_duplicate_name :
  map (fun s => (st_collection_name s, st_timestamp s))
      (get_current_status current_status_store)
  = [("A", "2024-01-01T00:00:01"); ("A", "2024-01-01T00:00:02");
     ("B", "2024-01-01T00:00:01")].
Proof. vm_compute. reflexivity. Qed.

(** ** The aggregation window *)

Lemma window_idem since_time db :
  window since_time (window since_time db) = window since_time db.
Proof.
  unfold window. induction db as [|r db IH]; simpl; [reflexivity|].
  destruct (since_time <? timestamp r)%string eqn:E; simpl; [rewrite E, IH; reflexivity | exact IH].
Qed.

(** Claim C7: the filter [WHERE timestamp > ?] of [get_uptime_stats] keeps
    exactly the rows whose timestamp is strictly greater than [since_time]
    (TEXT order); a row stamped exactly [since_time] is left out, and the
    statistics are those of the kept rows. *)
Theorem window_strictly_after since_time db r :
  (In r (window since_time db) <-> In r db /\ str_lt since_time (timestamp r)) /\
  (timestamp r = since_time -> ~ In r (window since_time db)) /\
  get_uptime_stats since_time db = get_uptime_stats since_time (window since_time db).
Proof.
  assert (Hin : In r (window since_time db) <-> In r db /\ str_lt since_time (timestamp r)).
  { unfold window. rewrite filter_In, str_ltb_spec. reflexivity. }
  split; [exact Hin|]. split.
  - intros Ht H. apply Hin in H as [_ H]. rewrite Ht in H. exact (str_lt_irrefl _ H).
  - rewrite !get_uptime_stats_query. unfold stats_query. rewrite window_idem. reflexivity.
Qed.

(** * Further properties of the monitor *)

(** ** [MAX(timestamp)] per collection *)

Lemma str_not_lt_total (a b : string) : ~ str_lt a b -> a = b \/ str_lt b a.
Proof.
  unfold str_lt. destruct (String.compare a b) eqn:C; intros H; try contradiction.
  - left. apply str_compare_Eq, C.
  - right. apply str_compare_Gt, C.
Qed.

Lemma str_not_lt_trans (a b c : string) : ~ str_lt b a -> ~ str_lt c b -> ~ str_lt c a.
Proof.
  intros H1 H2 H3. apply str_not_lt_total in H1 as [<-|H1]; [exact (H2 H3)|].
  apply H2. exact (str_lt_trans _ _ _ H3 H1).
Qed.

Lemma text_max_cases (a b : string) : text_max a b = a \/ text_max a b = b.
Proof. unfold text_max. destruct (a <? b)%string; auto. Qed.

Lemma text_max_ge (a b : string) :
  ~ str_lt (text_max a b) a /\ ~ str_lt (text_max a b) b.
Proof.
  unfold text_max. destruct (a <? b)%string eqn:E.
  - apply str_ltb_spec in E. split.
    + intros H. apply (str_lt_irrefl a). exact (str_lt_trans _ _ _ E H).
    + apply str_lt_irrefl.
  - split; [apply str_lt_irrefl|]. intros H. apply str_ltb_spec in H. congruence.
Qed.

Lemma max_timestamp_fold (db : store) (n : string) (m : option string) :
  let res := fold_left (fun m r =>
      if String.eqb (collection_name r) n then
        match m with
        | None => Some (timestamp r)
        | Some t => Some (text_max t (timestamp r))
        end
      else m) db m in
  (res = None -> m = None /\ forall r, In r db -> collection_name r <> n) /\
  (forall t, res = Some t ->
     (m = Some t \/ exists r, In r db /\ collection_name r = n /\ timestamp r = t) /\
     (forall t0, m = Some t0 -> ~ str_lt t t0) /\
     (forall r, In r db -> collection_name r = n -> ~ str_lt t (timestamp r))).
Proof.
  revert m. induction db as [|r db IH]; intros m; simpl.
  - split; [intros H; split; [exact H | tauto]|].
    intros t Ht. subst. split; [left; reflexivity|].
    split; [intros t0 H; injection H as <-; apply str_lt_irrefl | tauto].
  - destruct (String.eqb (collection_name r) n) eqn:E.
    + apply String.eqb_eq in E.
      set (m' := match m with
                 | Some t => Some (text_max t (timestamp r))
                 | None => Some (timestamp r) end).
      destruct (IH m') as [Hnone Hsome]. split.
      * intros H. destruct (Hnone H) as [Hm _]. unfold m' in Hm. destruct m; discriminate.
      * intros t Ht. destruct (Hsome t Ht) as [Hw [Hm Hr]].
        assert (Hge : ~ str_lt t (timestamp r) /\ forall t0, m = Some t0 -> ~ str_lt t t0).
        { unfold m' in Hm. destruct m as [t1|].
          - destruct (text_max_ge t1 (timestamp r)) as [G1 G2].
            specialize (Hm _ eq_refl). split.
            + exact (str_not_lt_trans _ _ _ G2 Hm).
            + intros t0 H. injection H as <-. exact (str_not_lt_trans _ _ _ G1 Hm).
          - split; [exact (Hm _ eq_refl) | discriminate]. }
        destruct Hge as [Hge1 Hge2].
        split; [|split; [exact Hge2|]].
        -- destruct Hw as [Hw|[r' [Hr' Hr'n]]].
           ++ unfold m' in Hw. destruct m as [t1|].
              ** injection Hw as Hw. destruct (text_max_cases t1 (timestamp r)) as [C|C];
                   rewrite C in Hw; [left; congruence | right; exists r; auto].
              ** injection Hw as Hw. right. exists r. auto.
           ++ right. exists r'. destruct Hr'n. auto.
        -- intros r' [<-|Hr'] Hn; [exact Hge1 | exact (Hr r' Hr' Hn)].
    + destruct (IH m) as [Hnone Hsome]. split.
      * intros H. destruct (Hnone H) as [Hm Hr]. split; [exact Hm|].
        intros r' [<-|Hr']; [intros Hn; apply String.eqb_eq in Hn; congruence | auto].
      * intros t Ht. destruct (Hsome t Ht) as [Hw [Hm Hr]].
        split; [destruct Hw as [Hw|[r' [? ?]]]; [left; exact Hw | right; exists r'; auto]|].
        split; [exact Hm|].
        intros r' [<-|Hr'] Hn; [apply String.eqb_eq in Hn; congruence | exact (Hr r' Hr' Hn)].
Qed.

Lemma max_timestamp_some db n t :
  max_timestamp db n = Some t ->
  (exists r, In r db /\ collection_name r = n /\ timestamp r = t) /\
  (forall r, In r db -> collection_name r = n -> ~ str_lt t (timestamp r)).
Proof.
  intros H. destruct (proj2 (max_timestamp_fold db n None) t H) as [[W|W] [_ R]];
    [discriminate | split; assumption].
Qed.

Lemma max_timestamp_exists db r :
  In r db -> exists t, max_timestamp db (collection_name r) = Some t.
Proof.
  intros Hr. destruct (max_timestamp db (collection_name r)) as [t|] eqn:E; [eauto|].
  exfalso. destruct (proj1 (max_timestamp_fold db (collection_name r) None) E) as [_ H].
  exact (H r Hr eq_refl).
Qed.

(** ** [ORDER BY collection_name] *)

Lemma insert_by_name_perm x l : Permutation (insert_by_name x l) (x :: l).
Proof.
  induction l as [|y l IH]; simpl; [reflexivity|].
  destruct (collection_name x <=? collection_name y)%string; [reflexivity|].
  rewrite IH. apply perm_swap.
Qed.

Lemma order_by_name_perm l : Permutation (order_by_name l) l.
Proof.
  induction l as [|x l IH]; simpl; [reflexivity|].
  rewrite insert_by_name_perm, IH. reflexivity.
Qed.

Lemma get_current_status_rows db s :
  In s (get_current_status db) <->
  exists r, s = to_status r /\ In r db /\ in_group_maxima db (timestamp r) = true.
Proof.
  unfold get_current_status. rewrite in_map_iff. split.
  - intros [r [<- Hr]]. apply (Permutation_in r (order_by_name_perm _)) in Hr.
    apply filter_In in Hr as [Hr Hm]. exists r. auto.
  - intros [r [-> [Hr Hm]]]. exists r. split; [reflexivity|].
    apply (Permutation_in r (Permutation_sym (order_by_name_perm _))).
    apply filter_In. auto.
Qed.

(** Every stored collection is listed by [get_current_status], with a row
    stamped at that collection's latest timestamp. *)
Lemma current_status_covers db r :
  In r db -> exists s, In s (get_current_status db) /\
    st_collection_name s = collection_name r /\
    max_timestamp db (collection_name r) = Some (st_timestamp s).
Proof.
  intros Hr. destruct (max_timestamp_exists db r Hr) as [t Ht].
  destruct (max_timestamp_some _ _ _ Ht) as [[r' [Hr' [Hn Hts]]] _].
  exists (to_status r'). split; [|split; [exact Hn | simpl; rewrite Hts; exact Ht]].
  apply get_current_status_rows. exists r'. split; [reflexivity|]. split; [exact Hr'|].
  apply existsb_exists. exists r. split; [exact Hr|]. rewrite Ht, Hts. apply String.eqb_refl.
Qed.

(** [get_current_status] never drops a collection: for every stored row,
    the output has a row of the same collection stamped with that
    collection's latest timestamp. *)
Theorem get_current_status_covers_store db r :
  In r db -> exists s, In s (get_current_status db) /\
    st_collection_name s = collection_name r /\
    max_timestamp db (collection_name r) = Some (st_timestamp s).
Proof. apply current_status_covers. Qed.

Lemma get_current_status_covers_store_witness :
  exists s, In s (get_current_status current_status_store) /\
    st_collection_name s = "B" /\
    max_timestamp current_status_store "B" = Some (st_timestamp s).
Proof.
  apply (get_current_status_covers_store current_status_store rB1).
  right. left. reflexivity.
Defined.

Lemma NoDup_map_same {A B} (f : A -> B) (l : list A) x y :
  NoDup (map f l) -> In x l -> In y l -> f x = f y -> x = y.
Proof.
  induction l as [|a l IH]; simpl; [tauto|]. intros Hnd Hx Hy E.
  inversion Hnd as [|? ? Hnot Hnd']; subst.
  destruct Hx as [<-|Hx], Hy as [<-|Hy]; auto.
  - exfalso. apply Hnot. rewrite E. apply in_map, Hy.
  - exfalso. apply Hnot. rewrite <- E. apply in_map, Hx.
Qed.

Lemma NoDup_names_of_latest (l : list ProbeResult) :
  NoDup (map timestamp l) ->
  (forall r r', In r l -> In r' l -> collection_name r = collection_name r' ->
     timestamp r = timestamp r') ->
  NoDup (map collection_name l).
Proof.
  induction l as [|r l IH]; simpl; intros Hnd Hsame; constructor.
  - intros Hin. apply in_map_iff in Hin as [r' [Hn Hr']].
    inversion Hnd as [|? ? Hnot _]; subst. apply Hnot.
    rewrite (Hsame r r' (or_introl eq_refl) (or_intror Hr') (eq_sym Hn)). apply in_map, Hr'.
  - inversion Hnd; subst. apply IH; [assumption|]. intros; apply Hsame; auto.
Qed.

Lemma NoDup_map_filter {A B} (f : A -> B) (p : A -> bool) l :
  NoDup (map f l) -> NoDup (map f (filter p l)).
Proof.
  induction l as [|a l IH]; simpl; [auto|]. intros Hnd. inversion Hnd as [|? ? Hnot Hnd']; subst.
  destruct (p a); simpl; [constructor|]; auto.
  intros Hin. apply Hnot. apply in_map_iff in Hin as [b [Hb Hin]].
  rewrite <- Hb. apply in_map. apply filter_In in Hin. tauto.
Qed.

(** With pairwise distinct timestamps in the table, a selected row is the
    latest of its own collection. *)
Lemma selected_is_own_latest db r :
  NoDup (map timestamp db) -> In r db -> in_group_maxima db (timestamp r) = true ->
  max_timestamp db (collection_name r) = Some (timestamp r).
Proof.
  intros Hnd Hr Hm. apply existsb_exists in Hm as [r0 [Hr0 Hm]].
  destruct (max_timestamp db (collection_name r0)) as [t|] eqn:E; [|discriminate].
  apply String.eqb_eq in Hm. subst t.
  destruct (max_timestamp_some _ _ _ E) as [[r1 [Hr1 [Hn Hts]]] _].
  rewrite <- (NoDup_map_same timestamp db r1 r Hnd Hr1 Hr Hts), Hn, Hts. exact E.
Qed.

Lemma current_status_unique db :
  NoDup (map timestamp db) ->
  NoDup (map st_collection_name (get_current_status db)) /\
  forall s, In s (get_current_status db) ->
    max_timestamp db (st_collection_name s) = Some (st_timestamp s).
Proof.
  intros Hnd. split.
  - unfold get_current_status. rewrite map_map. simpl.
    apply (Permutation_NoDup (Permutation_map _ (Permutation_sym (order_by_name_perm _)))).
    apply NoDup_names_of_latest.
    + apply NoDup_map_filter, Hnd.
    + intros r r' Hr Hr' Hn. apply filter_In in Hr as [Hr Hm], Hr' as [Hr' Hm'].
      apply selected_is_own_latest in Hm, Hm'; try assumption. congruence.
  - intros s Hs. apply get_current_status_rows in Hs as [r [-> [Hr Hm]]].
    apply selected_is_own_latest; assumption.
Qed.

(** When no two stored rows share a timestamp, [get_current_status]
    returns at most one row per collection, and each row carries the
    latest timestamp of its own collection. *)
Theorem get_current_status_distinct_timestamps db :
  NoDup (map timestamp db) ->
  NoDup (map st_collection_name (get_current_status db)) /\
  forall s, In s (get_current_status db) ->
    max_timestamp db (st_collection_name s) = Some (st_timestamp s).
Proof. apply current_status_unique. Qed.

Lemma get_current_status_distinct_timestamps_witness :
  NoDup (map st_collection_name (get_current_status distinct_store)).
Proof.
  apply (proj1 (get_current_status_distinct_timestamps distinct_store
                  ltac:(vm_compute; repeat constructor; simpl; intuition discriminate))).
Defined.

(** When no two stored rows share a timestamp, the number of collections
    announced by the report ([len(current_status)]) is the number of
    distinct collection names in the table. *)
Theorem report_count_distinct_timestamps db :
  NoDup (map timestamp db) ->
  length (get_current_status db) = length (group_names db).
Proof.
  intros Hnd. destruct (current_status_unique db Hnd) as [Hu _].
  rewrite <- (length_map st_collection_name).
  apply Permutation_length, NoDup_Permutation;
    [exact Hu | apply StronglySorted_NoDup, group_names_sorted|].
  intros n. rewrite group_names_In, in_map_iff. split.
  - intros [s [<- Hs]]. apply get_current_status_rows in Hs as [r [-> [Hr _]]].
    exists r. auto.
  - intros [r [Hr <-]]. destruct (current_status_covers db r Hr) as [s [Hs [Hn _]]].
    exists s. auto.
Qed.

Lemma report_count_distinct_timestamps_witness :
  length (get_current_status distinct_store) = 2%nat.
Proof.
  rewrite (report_count_distinct_timestamps distinct_store
             ltac:(vm_compute; repeat constructor; simpl; intuition discriminate)).
  vm_compute. reflexivity.
Defined.

(** ** [get_uptime_stats] after [save_results] *)

Lemma dict_get_map_keys {V} (h : string -> V) (keys : list string) n :
  dict_get (map (fun k => (k, h k)) keys) n = if in_dec string_dec n keys then Some (h n) else None.
Proof.
  unfold dict_get. induction keys as [|k keys IH]; simpl; [reflexivity|].
  destruct (String.eqb k n) eqn:E.
  - apply String.eqb_eq in E. subst. destruct (string_dec n n) as [_|C]; [reflexivity|].
    exfalso; apply C; reflexivity.
  - rewrite IH. destruct (in_dec string_dec n keys), (string_dec k n) as [Hk|Hk];
      try reflexivity; apply String.eqb_neq in E; congruence.
Qed.

Lemma group_rows_nil_iff w n : group_rows w n = [] <-> ~ In n (group_names w).
Proof.
  split.
  - intros E Hn. exact (group_rows_nonempty w n Hn E).
  - intros Hn. apply filter_nil_all. intros r Hr. apply Bool.not_true_iff_false.
    intros E. apply String.eqb_eq in E. apply Hn, group_names_In. eauto.
Qed.

Lemma get_uptime_stats_lookup since_time db n :
  dict_get (get_uptime_stats since_time db) n =
  match group_rows (window since_time db) n with
  | [] => None
  | g => Some (row_stats (sql_count g) (sql_successful g) (sql_avg g))
  end.
Proof.
  rewrite get_uptime_stats_query. unfold stats_query.
  rewrite (dict_get_map_keys (fun n => let g := group_rows (window since_time db) n in
             row_stats (sql_count g) (sql_successful g) (sql_avg g))).
  destruct (in_dec string_dec n (group_names (window since_time db))) as [Hn|Hn].
  - destruct (group_rows (window since_time db) n) eqn:E; [|reflexivity].
    exfalso. exact (group_rows_nonempty _ _ Hn E).
  - rewrite (proj2 (group_rows_nil_iff _ _) Hn). reflexivity.
Qed.

Lemma checks_of_group since_time db n :
  checks_of (get_uptime_stats since_time db) n =
  (sql_count (group_rows (window since_time db) n),
   sql_successful (group_rows (window since_time db) n)).
Proof.
  unfold checks_of. rewrite get_uptime_stats_lookup.
  destruct (group_rows (window since_time db) n); reflexivity.
Qed.

Lemma window_app since_time (db rs : store) :
  window since_time (db ++ rs)%list = (window since_time db ++ window since_time rs)%list.
Proof. unfold window. apply filter_app. Qed.

(** Saving a batch adds, for every collection, the batch's in-window checks
    and successes to the totals reported by [get_uptime_stats]. *)
Theorem get_uptime_stats_save_results_additive since_time db rs n :
  let '(t, s) := checks_of (get_uptime_stats since_time (save_results db rs)) n in
  let '(t1, s1) := checks_of (get_uptime_stats since_time db) n in
  let '(t2, s2) := checks_of (get_uptime_stats since_time rs) n in
  t = (t1 + t2)%Z /\ s = (s1 + s2)%Z.
Proof.
  rewrite !checks_of_group. unfold save_results. rewrite window_app.
  unfold group_rows. rewrite filter_app.
  unfold sql_count. rewrite length_app, Nat2Z.inj_add. split; [reflexivity|].
  unfold sql_successful. rewrite fold_right_app.
  induction (filter _ (window since_time db)) as [|r l IH]; simpl; [lia|].
  rewrite IH. lia.
Qed.

(** Saving rows none of which is newer than [since_time] leaves the
    statistics of that window unchanged. *)
Theorem get_uptime_stats_save_old_rows since_time db rs :
  (forall r, In r rs -> ~ str_lt since_time (timestamp r)) ->
  get_uptime_stats since_time (save_results db rs) = get_uptime_stats since_time db.
Proof.
  intros Hold. rewrite !get_uptime_stats_query. unfold stats_query, save_results.
  rewrite window_app.
  replace (window since_time rs) with (@nil ProbeResult); [rewrite app_nil_r; reflexivity|].
  symmetry. apply filter_nil_all. intros r Hr. apply Bool.not_true_iff_false.
  rewrite str_ltb_spec. apply Hold, Hr.
Qed.

Lemma get_uptime_stats_save_old_rows_witness :
  get_uptime_stats "2024-01-01T06:00:00" (save_results [rA1] [rA2; rB1])
  = get_uptime_stats "2024-01-01T06:00:00" [rA1].
Proof.
  apply get_uptime_stats_save_old_rows.
  intros r Hr H. unfold str_lt in H.
  destruct Hr as [<-|[<-|[]]]; vm_compute in H; discriminate.
Defined.

(** A collection whose checks in the window all succeeded gets an
    [uptime_percent] of exactly [100.0], and one whose checks all failed
    gets exactly [0.0]: both survive the binary64 arithmetic unrounded. *)
Theorem get_uptime_stats_uptime_extremes since_time db n st :
  dict_get (get_uptime_stats since_time db) n = Some st ->
  (successful_checks st = total_checks st -> uptime_percent st = Fin 100) /\
  (successful_checks st = 0%Z -> uptime_percent st = Fin 0).
Proof.
  rewrite get_uptime_stats_lookup.
  destruct (group_rows (window since_time db) n) as [|r g] eqn:E; [discriminate|].
  intros H. injection H as <-. unfold row_stats.
  cbn [uptime_percent total_checks successful_checks].
  set (t := sql_count (r :: g)). set (s := sql_successful (r :: g)).
  assert (Ht : (0 < t)%Z) by (unfold t, sql_count; cbn [length]; lia).
  rewrite (proj2 (Z.ltb_lt 0 t) Ht).
  assert (Hq : 0 < inject_Z t) by (change 0 with (inject_Z 0); rewrite <- Zlt_Qlt; exact Ht).
  split; intros Hs; rewrite Hs; unfold py_int_div.
  - rewrite (fl_comp _ 1); [vm_compute; reflexivity|].
    unfold Qdiv. apply Qmult_inv_r. intros Z0. rewrite Z0 in Hq. apply (Qlt_irrefl 0 Hq).
  - rewrite (fl_zero (inject_Z 0 / inject_Z t)); [vm_compute; reflexivity|].
    unfold Qdiv. apply Qmult_0_l.
Qed.

Lemma get_uptime_stats_uptime_extremes_witness :
  exists st, dict_get (get_uptime_stats "2024-01-01T00:00:00" [rA1; rB1; rA2]) "B" = Some st /\
    uptime_percent st = Fin 0.
Proof.
  destruct (dict_get (get_uptime_stats "2024-01-01T00:00:00" [rA1; rB1; rA2]) "B")
    as [st|] eqn:E; [|vm_compute in E; discriminate].
  exists st. split; [reflexivity|].
  apply (proj2 (get_uptime_stats_uptime_extremes "2024-01-01T00:00:00" [rA1; rB1; rA2] "B" st E)).
  vm_compute in E. injection E as <-. reflexivity.
Defined.

(** ** [run_monitoring_cycle] *)

Lemma count_accessible_filter l :
  count_accessible l = Z.of_nat (length (filter is_accessible l)).
Proof.
  induction l as [|r l IH]; simpl; [reflexivity|].
  rewrite IH. destruct (is_accessible r); cbn [length]; lia.
Qed.

Lemma run_monitoring_cycle_ok collections session_get clock order db :
  Permutation order collections ->
  (forall u t e, session_get u t = Raised e -> is_Exception (exc_cls e) = true) ->
  exists results,
    run_monitoring_cycle collections session_get clock order db =
      Ok (save_results db results, results,
          (count_accessible results, Z.of_nat (length results))) /\
    Permutation (map (fun r => (collection_name r, url r)) results) collections.
Proof.
  intros P Hexc. unfold run_monitoring_cycle, monitor_all_collections. simpl.
  destruct (collect_results_all session_get clock order [] Hexc) as [rs [Hrs Hmap]].
  rewrite Hrs. exists rs. split; [reflexivity|]. rewrite Hmap. exact P.
Qed.

(** A monitoring cycle whose probes raise only [Exception]s appends to the
    table exactly the rows it returns, one per configured collection (the
    rows' names and URLs are the configured pairs, each once), and its
    printed summary [X/Y] has [X] the number of accessible new rows, [Y]
    the number of collections and [0 <= X <= Y]. *)
Theorem run_monitoring_cycle_summary collections session_get clock order db :
  Permutation order collections ->
  (forall u t e, session_get u t = Raised e -> is_Exception (exc_cls e) = true) ->
  exists results x y,
    run_monitoring_cycle collections session_get clock order db =
      Ok ((db ++ results)%list, results, (x, y)) /\
    Permutation (map (fun r => (collection_name r, url r)) results) collections /\
    x = Z.of_nat (length (filter is_accessible results)) /\
    y = Z.of_nat (length collections) /\ (0 <= x <= y)%Z.
Proof.
  intros P Hexc. destruct (run_monitoring_cycle_ok collections session_get clock order db P Hexc)
    as [rs [Hrun Hmap]].
  assert (L : length rs = length collections).
  { rewrite <- (Permutation_length Hmap). apply eq_sym, length_map. }
  exists rs, (count_accessible rs), (Z.of_nat (length rs)). split; [exact Hrun|].
  split; [exact Hmap|]. rewrite count_accessible_filter, L.
  split; [reflexivity|]. split; [reflexivity|].
  rewrite <- L. pose proof (filter_length_le is_accessible rs). lia.
Qed.

Lemma run_monitoring_cycle_summary_witness :
  exists results x y,
    run_monitoring_cycle [("A", "a"); ("B", "b")] all_timeouts (fun _ => "t")
      [("B", "b"); ("A", "a")] [rA1] = Ok (([rA1] ++ results)%list, results, (x, y)) /\
    Permutation (map (fun r => (collection_name r, url r)) results) [("A", "a"); ("B", "b")] /\
    x = Z.of_nat (length (filter is_accessible results)) /\
    y = 2%Z /\ (0 <= x <= y)%Z.
Proof.
  apply (run_monitoring_cycle_summary [("A", "a"); ("B", "b")] all_timeouts (fun _ => "t")
           [("B", "b"); ("A", "a")] [rA1]).
  - apply perm_swap.
  - intros u t e He. injection He as <-. reflexivity.
Defined.

(** After such a cycle, the status report lists every configured
    collection. *)
Theorem run_monitoring_cycle_status_lists_all collections session_get clock order db :
  Permutation order collections ->
  (forall u t e, session_get u t = Raised e -> is_Exception (exc_cls e) = true) ->
  exists db' results summary,
    run_monitoring_cycle collections session_get clock order db = Ok (db', results, summary) /\
    forall n u, In (n, u) collections ->
      exists s, In s (get_current_status db') /\ st_collection_name s = n.
Proof.
  intros P Hexc. destruct (run_monitoring_cycle_ok collections session_get clock order db P Hexc)
    as [rs [Hrun Hmap]].
  eexists _, rs, _. split; [exact Hrun|]. intros n u Hin.
  apply (Permutation_in _ (Permutation_sym Hmap)), in_map_iff in Hin as [r [E Hr]].
  injection E as <- _.
  destruct (current_status_covers (save_results db rs) r) as [s [Hs [Hn _]]].
  - unfold save_results. apply in_or_app. right. exact Hr.
  - exists s. auto.
Qed.

Lemma run_monitoring_cycle_status_lists_all_witness :
  exists db' results summary,
    run_monitoring_cycle [("A", "a"); ("B", "b")] all_timeouts (fun _ => "t")
      [("A", "a"); ("B", "b")] [] = Ok (db', results, summary) /\
    exists s, In s (get_current_status db') /\ st_collection_name s = "B".
Proof.
  destruct (run_monitoring_cycle_status_lists_all [("A", "a"); ("B", "b")] all_timeouts
              (fun _ => "t") [("A", "a"); ("B", "b")] [] (Permutation_refl _))
    as [db' [rs [sm [Hrun Hall]]]].
  - intros u t e He. injection He as <-. reflexivity.
  - exists db', rs, sm. split; [exact Hrun|]. apply (Hall "B" "b"). right; left; reflexivity.
Defined.

(** ** [display_status_report] *)

(** The report's [up_count] is the number of accessible rows of the
    current status and [down_count] the number of the others; in
    particular [down_count] is never negative. *)
Theorem report_counts_split current_status :
  let '(up_count, down_count) := report_counts current_status in
  up_count = Z.of_nat (length (filter st_is_accessible current_status)) /\
  down_count = Z.of_nat (length (filter (fun s => negb (st_is_accessible s)) current_status)) /\
  (0 <= down_count)%Z.
Proof.
  unfold report_counts. cbv beta iota zeta.
  induction current_status as [|s l IH]; [cbn; lia|].
  destruct IH as [IH1 [IH2 _]]. cbn [fold_right filter].
  destruct (st_is_accessible s); cbn [negb filter length]; rewrite ?Nat2Z.inj_succ; lia.
Qed.

(** ** More on [check_collection] *)

(** [status_code], [response_time] and [content_length] are all present
    when the request completed and all absent when it raised. *)
Theorem check_collection_measurements session_get now name u timeout r :
  check_collection session_get now name u timeout = Ok r ->
  (status_code r = None <-> response_time r = None) /\
  (status_code r = None <-> content_length r = None) /\
  (status_code r = None <-> exists e, session_get u timeout = Raised e).
Proof.
  unfold check_collection. destruct (session_get u timeout) as [sc el len | e].
  - intros H. injection H as <-. simpl.
    repeat split; try discriminate. intros [e He]; discriminate.
  - destruct e as [c msg]; destruct c; simpl; intros H; try discriminate.
    all: injection H as <-; simpl; repeat split; eauto.
Qed.

Lemma check_collection_measurements_witness :
  check_collection all_timeouts "t" "C" "u" 10 =
    Ok (mk_result "C" "u" "t" false None None None (Some "Request timeout")) /\
  (None = @None Z <-> None = @None float).
Proof.
  split; [reflexivity|].
  exact (proj1 (check_collection_measurements all_timeouts "t" "C" "u" 10 _ eq_refl)).
Defined.

Lemma round_half_even_nonneg (x : Q) : 0 <= x -> (0 <= round_half_even x)%Z.
Proof.
  intros H. destruct (round_half_even_bounds 0 (Qceiling x) x) as [L _]; [|exact L].
  split; [exact H | apply Qle_ceiling].
Qed.

(** For a completed request whose measured time [end_time - start_time]
    is a double [el] with [0 <= el <= 2^1000], the reported
    [response_time] is a non-negative double within [0.005] of [el] up to
    the rounding of the two-decimal result back to binary64, which adds at
    most [(el + 1) * 2^-53]. The bound [0.005] alone fails: [round(0.125, 2)]
    is the double [0.11999999999999999555910790149937...]. *)
Theorem check_collection_response_time session_get now name u timeout sc el len r :
  session_get u timeout = Response sc (Fin el) len -> 0 <= el <= pow2 1000 ->
  check_collection session_get now name u timeout = Ok r ->
  exists rt, response_time r = Some (Fin rt) /\ 0 <= rt /\
    Qabs (rt - el) <= (1 # 200) + (el + 1) * pow2 (-53).
Proof.
  intros Hget [Hel0 Hel1]. unfold check_collection. rewrite Hget. intros H. injection H as <-.
  cbn [response_time py_round2].
  set (k := round_half_even (el * 100)).
  assert (E : round2 el == inject_Z k * (1 # 100)).
  { unfold round2, Qeq; simpl. lia. }
  pose proof (round_half_even_error (el * 100)) as Err. fold k in Err.
  pose proof (round_half_even_nonneg (el * 100) ltac:(lra)) as Nn. fold k in Nn.
  assert (Kq : 0 <= inject_Z k) by (change 0 with (inject_Z 0); rewrite <- Zle_Qle; exact Nn).
  apply Qabs_Qle_condition in Err.
  set (x := round2 el) in *.
  set (P := pow2 1000) in *.
  assert (P1 : 1 <= P).
  { change 1 with (pow2 0). apply pow2_le. lia. }
  assert (P2 : pow2 1001 == P * 2).
  { rewrite (pow2_plus 1000 1). reflexivity. }
  destruct (fl_le x 1 1001) as [y [Hy [Hy0 _]]].
  - rewrite E. lra.
  - rewrite E, P2, Qmult_1_l. lra.
  - apply (Qle_lt_trans _ (inject_Z 1 * pow2 1001)); [rewrite E, P2, Qmult_1_l; lra|].
    rewrite Qmult_1_l. apply pow2_lt. lia.
  - lia.
  - rewrite Qmult_1_l. apply pow2_lt. lia.
  - exists y. rewrite Hy. split; [reflexivity|]. split; [exact Hy0|].
    set (a := pow2 (-53)). set (b := pow2 (-1075)).
    assert (A0 : 0 < a) by apply pow2_pos.
    assert (Ba : b <= a * (1 # 2)).
    { unfold b, a. rewrite <- (pow2_plus (-53) (-1)). apply pow2_le. lia. }
    assert (El : 0 <= el * a) by (apply Qmult_le_0_compat; lra).
    destruct (Qeq_dec x 0) as [X0|X0].
    + rewrite (fl_zero x X0) in Hy. apply Fin_inj in Hy. subst y.
      rewrite E in X0. apply Qabs_Qle_condition. lra.
    + assert (Xp : 0 < x) by (rewrite E in *; destruct (Qle_lt_or_eq 0 (inject_Z k * (1 # 100)));
                               [apply Qmult_le_0_compat; lra | exact H | elim X0; rewrite H; reflexivity]).
      pose proof (fl_error x y Xp Hy) as Fe. fold a b in Fe.
      assert (Xa : x * a <= (el + (1 # 200)) * a).
      { apply Qmult_le_compat_r; [rewrite E; lra | lra]. }
      apply Qabs_Qle_condition in Fe. apply Qabs_Qle_condition.
      rewrite E in Fe, Xa. lra.
Qed.

Lemma check_collection_response_time_witness :
  exists rt, response_time (mk_result "A" "u" "t" true (Some 200%Z) (Some (py_round2 (Fin (1 # 8))))
                              (Some 5%Z) None) = Some (Fin rt) /\
             0 <= rt /\ Qabs (rt - (1 # 8)) <= (1 # 200) + ((1 # 8) + 1) * pow2 (-53).
Proof.
  apply (check_collection_response_time (fun _ _ => Response 200 (Fin (1 # 8)) 5) "t" "A" "u" 10
           200 (1 # 8) 5); [reflexivity | | reflexivity].
  split; [discriminate|]. apply Qle_bool_iff. vm_compute. reflexivity.
Defined.

(** ** A [BaseException] aborts [monitor_all_collections] *)

Lemma collect_results_base_exception session_get clock order acc name u e :
  In (name, u) order -> session_get u 10%Z = Raised e -> exc_cls e = BaseOnly ->
  exists e', collect_results session_get clock order acc = Raise e' /\ exc_cls e' = BaseOnly.
Proof.
  intros Hin Hget Hc. revert acc.
  induction order as [|[n0 u0] order IH]; intros acc; [destruct Hin|].
  simpl. destruct Hin as [E|Hin].
  - injection E as -> ->.
    rewrite (check_collection_base_exception session_get (clock name) name u 10 e Hget Hc).
    rewrite Hc. simpl. exists e. auto.
  - destruct (check_collection session_get (clock n0) n0 u0 10) as [r|e0]; [apply IH, Hin|].
    destruct (is_Exception (exc_cls e0)) eqn:X; [apply IH, Hin|].
    exists e0. split; [reflexivity|]. destruct (exc_cls e0); easy.
Qed.

(** If the probe of any target raises a [BaseException] that is not an
    [Exception] ([KeyboardInterrupt]), [monitor_all_collections] raises it
    and returns no results, even though other probes succeeded. *)
Theorem monitor_all_collections_base_exception collections max_workers session_get clock
    order name u e :
  (1 <= max_workers)%Z -> In (name, u) order ->
  session_get u 10%Z = Raised e -> exc_cls e = BaseOnly ->
  exists e', monitor_all_collections collections max_workers session_get clock order = Raise e' /\
    exc_cls e' = BaseOnly.
Proof.
  intros Hk Hin Hget Hc. unfold monitor_all_collections.
  replace (max_workers <=? 0)%Z with false by (symmetry; apply Z.leb_gt; lia).
  exact (collect_results_base_exception session_get clock order [] name u e Hin Hget Hc).
Qed.

Lemma monitor_all_collections_base_exception_witness :
  exists e', monitor_all_collections [("A", "a"); ("B", "b")] 5 interrupted_on_b
               (fun _ => "t") [("A", "a"); ("B", "b")] = Raise e' /\ exc_cls e' = BaseOnly.
Proof.
  apply (monitor_all_collections_base_exception _ 5 interrupted_on_b _ _ "B" "b"
           (mk_exc BaseOnly "KeyboardInterrupt")).
  - lia.
  - right; left; reflexivity.
  - reflexivity.
  - reflexivity.
Defined.
